(** * FastBoard: session registry, message validation, board log and
      admission control

    A shallow embedding of the core of the FastBoard server
    ([app/models/schemas.py], [app/utils/helpers.py],
    [app/services/connection_manager.py], [app/api/websocket.py]) together
    with the properties of its specification that were checked against it. *)

From Stdlib Require Import ZArith QArith String Ascii List Bool Lia.
From stdpp Require Import base option list gmap strings fin_maps.

Local Open Scope string_scope.
Local Open Scope list_scope.
Local Open Scope Z_scope.

(** ** JSON values

    What [json.loads] hands to the application: Python [None], [bool],
    [int], [float], [str], [list] and [dict] with string keys.  A float is
    kept as the rational value of the parsed double (the non-finite doubles
    fail every range check of the schemas and are left out).  A dict keeps
    its items in insertion order. *)
Module Json.

#[local] Set Warnings "-register-all".

Inductive json : Type :=
| JNull
| JBool (b : bool)
| JInt (z : Z)
| JFloat (q : Q)
| JStr (s : string)
| JArr (items : list json)
| JObj (items : list (string * json)).

(** [d.get(key)] and [d[key]] on a dict literal. *)
Fixpoint dict_get {A : Type} (key : string) (d : list (string * A)) : option A :=
  match d with
  | [] => None
  | (k, v) :: rest => if String.eqb k key then Some v else dict_get key rest
  end.

(** [key in d]. *)
Definition dict_mem {A : Type} (key : string) (d : list (string * A)) : bool :=
  match dict_get key d with Some _ => true | None => false end.

(** [value == text] for a Python [str] on the right-hand side. *)
Definition eq_str (v : json) (text : string) : bool :=
  match v with
  | JStr s => String.eqb s text
  | _ => false
  end.

End Json.
Export Json.

(** ** Settings ([app/core/config.py]) *)
Module Config.

Record Settings : Type := {
  max_canvas_size : Z;
  max_stroke_points : Z;
  rate_limit_requests : Z;
  rate_limit_window : Z
}.

(** The defaults of the [Settings] class. *)
Definition settings : Settings := {|
  max_canvas_size := 4096;
  max_stroke_points := 1000;
  rate_limit_requests := 100;
  rate_limit_window := 60
|}.

End Config.
Export Config.

(** ** Exceptions ([app/core/exceptions.py]) *)
Module Exceptions.

Inductive Exn : Type :=
| WebSocketException (message : string)
| ValidationException (message : string).

(** A computation that returns or raises. *)
Inductive result (E A : Type) : Type :=
| Ok (a : A)
| Raise (e : E).
Arguments Ok {E A} a.
Arguments Raise {E A} e.

Definition is_ok {E A : Type} (r : result E A) : bool :=
  match r with Ok _ => true | Raise _ => false end.

End Exceptions.
Export Exceptions.

(** ** Message schemas ([app/models/schemas.py]) *)
Module Schemas.

Inductive MessageType : Type :=
| DRAW | TEXT | CLEAR | CURSOR | USER_COUNT | BOARD_STATE | ERROR.

(** The string value of each member of the [str]-based enum. *)
Definition MessageType_value (t : MessageType) : string :=
  match t with
  | DRAW => "draw"
  | TEXT => "text"
  | CLEAR => "clear"
  | CURSOR => "cursor"
  | USER_COUNT => "user_count"
  | BOARD_STATE => "board_state"
  | ERROR => "error"
  end.

Definition MessageType_members : list MessageType :=
  [DRAW; TEXT; CLEAR; CURSOR; USER_COUNT; BOARD_STATE; ERROR].

Inductive ToolType : Type := PEN | ERASER.

Definition ToolType_value (t : ToolType) : string :=
  match t with PEN => "pen" | ERASER => "eraser" end.

(** A pydantic validation outcome; [ValidationError] is a [ValueError]. *)
Abbreviation validated := (result string).

Definition vbind {A B : Type} (r : validated A) (k : A -> validated B) : validated B :=
  match r with
  | Ok a => k a
  | Raise e => Raise e
  end.

Notation "'let?' x := r 'in' k" := (vbind r (fun x => k))
  (at level 10, x name, r at level 100, k at level 200).

(** A required field of a model. *)
Definition required {A : Type} (name : string) (d : list (string * json))
    (parse : json -> validated A) : validated A :=
  match dict_get name d with
  | Some v => parse v
  | None => Raise (String.append "Field required: " name)
  end.

(** A field with a default. *)
Definition optional {A : Type} (name : string) (d : list (string * json))
    (default : A) (parse : json -> validated A) : validated A :=
  match dict_get name d with
  | Some v => parse v
  | None => Ok default
  end.

Fixpoint traverse {A B : Type} (f : A -> validated B) (l : list A) : validated (list B) :=
  match l with
  | [] => Ok []
  | a :: rest => let? b := f a in let? bs := traverse f rest in Ok (b :: bs)
  end.

(** Scalar fields.  Only the JSON kind that matches the annotation is taken
    (an integer is also a float); pydantic's further lax conversions between
    scalar kinds do not change which messages are accepted, see
    [validate_payload]. *)
Definition as_str (v : json) : validated string :=
  match v with
  | JStr s => Ok s
  | _ => Raise "Input should be a valid string"
  end.

Definition as_int (v : json) : validated Z :=
  match v with
  | JInt z => Ok z
  | _ => Raise "Input should be a valid integer"
  end.

Definition as_float (v : json) : validated Q :=
  match v with
  | JInt z => Ok (inject_Z z)
  | JFloat q => Ok q
  | _ => Raise "Input should be a valid number"
  end.

Definition MessageType_of_value (s : string) : validated MessageType :=
  match find (fun t => String.eqb (MessageType_value t) s) MessageType_members with
  | Some t => Ok t
  | None => Raise "Input should be 'draw', 'text', 'clear', 'cursor', 'user_count', 'board_state' or 'error'"
  end.

Definition ToolType_of_value (s : string) : validated ToolType :=
  if String.eqb s "pen" then Ok PEN
  else if String.eqb s "eraser" then Ok ERASER
  else Raise "Input should be 'pen' or 'eraser'".

(** The pattern [^#[0-9A-Fa-f]{6}$]. *)
Definition is_hex_digit (c : ascii) : bool :=
  let n := nat_of_ascii c in
  ((48 <=? n) && (n <=? 57) || (65 <=? n) && (n <=? 70) || (97 <=? n) && (n <=? 102))%nat.

Definition matches_hex_color (s : string) : bool :=
  match s with
  | String "#" digits =>
      (String.length digits =? 6)%nat && forallb is_hex_digit (list_ascii_of_string digits)
  | _ => false
  end.

Definition as_color (v : json) : validated string :=
  let? s := as_str v in
  if matches_hex_color s then Ok s else Raise "String should match pattern '^#[0-9A-Fa-f]{6}$'".

Record Point : Type := { x : Q; y : Q }.

(** [Point.validate_coordinates]. *)
Definition validate_coordinates (v : Q) : validated Q :=
  if Qle_bool (-10000 # 1) v && Qle_bool v (10000 # 1) then Ok v
  else Raise "Coordinate value out of reasonable range".

Definition validate_Point (v : json) : validated Point :=
  match v with
  | JObj d =>
      let? px := required "x" d (fun j => let? q := as_float j in validate_coordinates q) in
      let? py := required "y" d (fun j => let? q := as_float j in validate_coordinates q) in
      Ok {| x := px; y := py |}
  | _ => Raise "Input should be a valid dictionary or instance of Point"
  end.

Record DrawPayload : Type := {
  tool : ToolType;
  color : string;
  size : Z;
  points : list Point
}.

(** [DrawPayload.validate_points_limit], run on the parsed list. *)
Definition validate_points_limit (cfg : Settings) (v : list Point) : validated (list Point) :=
  if Z.of_nat (length v) >? max_stroke_points cfg
  then Raise "Too many points in stroke"
  else Ok v.

Definition validate_points (cfg : Settings) (v : json) : validated (list Point) :=
  match v with
  | JArr items =>
      let? pts := traverse validate_Point items in
      if (length pts <? 1)%nat
      then Raise "List should have at least 1 item after validation"
      else validate_points_limit cfg pts
  | _ => Raise "Input should be a valid list"
  end.

Definition validate_DrawPayload (cfg : Settings) (v : json) : validated DrawPayload :=
  match v with
  | JObj d =>
      let? t := required "tool" d (fun j => let? s := as_str j in ToolType_of_value s) in
      let? c := required "color" d as_color in
      let? sz := required "size" d (fun j =>
              let? z := as_int j in
              if (1 <=? z) && (z <=? 100) then Ok z
              else Raise "Input should be between 1 and 100") in
      let? pts := required "points" d (validate_points cfg) in
      Ok {| tool := t; color := c; size := sz; points := pts |}
  | _ => Raise "Input should be a valid dictionary or instance of DrawPayload"
  end.

Record TextPayload : Type := {
  content : string;
  text_x : Q;
  text_y : Q;
  font : string;
  text_color : string
}.

Definition validate_TextPayload (v : json) : validated TextPayload :=
  match v with
  | JObj d =>
      let? c := required "content" d (fun j =>
             let? s := as_str j in
             if (String.length s <=? 1000)%nat then Ok s
             else Raise "String should have at most 1000 characters") in
      let? px := required "x" d as_float in
      let? py := required "y" d as_float in
      let? f := optional "font" d "16px Arial" as_str in
      let? col := required "color" d as_color in
      Ok {| content := c; text_x := px; text_y := py; font := f; text_color := col |}
  | _ => Raise "Input should be a valid dictionary or instance of TextPayload"
  end.

Record CursorPayload : Type := { cursor_x : Q; cursor_y : Q }.

Definition validate_CursorPayload (v : json) : validated CursorPayload :=
  match v with
  | JObj d =>
      let? px := required "x" d as_float in
      let? py := required "y" d as_float in
      Ok {| cursor_x := px; cursor_y := py |}
  | _ => Raise "Input should be a valid dictionary or instance of CursorPayload"
  end.

Record UserCountPayload : Type := { count : Z }.

Definition validate_UserCountPayload (v : json) : validated UserCountPayload :=
  match v with
  | JObj d =>
      let? n := required "count" d (fun j =>
             let? z := as_int j in
             if 0 <=? z then Ok z else Raise "Input should be greater than or equal to 0") in
      Ok {| count := n |}
  | _ => Raise "Input should be a valid dictionary or instance of UserCountPayload"
  end.

Record BoardStatePayload : Type := { actions : list json }.

Definition as_dict (v : json) : validated json :=
  match v with
  | JObj _ => Ok v
  | _ => Raise "Input should be a valid dictionary"
  end.

Definition validate_BoardStatePayload (v : json) : validated BoardStatePayload :=
  match v with
  | JObj d =>
      let? acts := optional "actions" d [] (fun j =>
                match j with
                | JArr items => traverse as_dict items
                | _ => Raise "Input should be a valid list"
                end) in
      Ok {| actions := acts |}
  | _ => Raise "Input should be a valid dictionary or instance of BoardStatePayload"
  end.

Record ErrorPayload : Type := { message : string; code : option string }.

Definition validate_ErrorPayload (v : json) : validated ErrorPayload :=
  match v with
  | JObj d =>
      let? m := required "message" d as_str in
      let? c := optional "code" d None (fun j =>
             match j with
             | JNull => Ok None
             | _ => let? s := as_str j in Ok (Some s)
             end) in
      Ok {| message := m; code := c |}
  | _ => Raise "Input should be a valid dictionary or instance of ErrorPayload"
  end.

(** The members of the [payload] union, in the order of the annotation. *)
Inductive Payload : Type :=
| PDraw (p : DrawPayload)
| PText (p : TextPayload)
| PCursor (p : CursorPayload)
| PUserCount (p : UserCountPayload)
| PBoardState (p : BoardStatePayload)
| PError (p : ErrorPayload)
| PDict (d : list (string * json)).

Definition or_else {A : Type} (r : validated A) (other : validated A) : validated A :=
  match r with
  | Ok a => Ok a
  | Raise _ => other
  end.

Definition vmap {A B : Type} (f : A -> B) (r : validated A) : validated B :=
  match r with
  | Ok a => Ok (f a)
  | Raise e => Raise e
  end.

(** The union [DrawPayload | TextPayload | ... | Dict[str, Any]]: the value
    is accepted as soon as one member accepts it, and rejected only when all
    of them do.  Members are tried in the order they are written; which of
    several accepting members pydantic prefers is not observed below. *)
Definition validate_payload (cfg : Settings) (v : json) : validated Payload :=
  or_else (vmap PDraw (validate_DrawPayload cfg v))
  (or_else (vmap PText (validate_TextPayload v))
  (or_else (vmap PCursor (validate_CursorPayload v))
  (or_else (vmap PUserCount (validate_UserCountPayload v))
  (or_else (vmap PBoardState (validate_BoardStatePayload v))
  (or_else (vmap PError (validate_ErrorPayload v))
  (match v with
   | JObj d => Ok (PDict d)
   | _ => Raise "Input should be a valid dictionary"
   end)))))).

Record WebSocketMessage : Type := {
  type : MessageType;
  client_id : string;
  payload : option Payload
}.

(** The constructor [WebSocketMessage], called with the items of [data] as
    keyword arguments: [type] by enum value, [client_id] under its
    alias [clientId] (or, with [populate_by_name], its own name), [payload]
    optional with default [None]; other keys are ignored. *)
Definition new_WebSocketMessage (cfg : Settings) (data : list (string * json))
    : validated WebSocketMessage :=
  let? t := required "type" data (fun j => let? s := as_str j in MessageType_of_value s) in
  let? cid := match dict_get "clientId" data with
         | Some v => as_str v
         | None => required "client_id" data as_str
         end in
  let? p := optional "payload" data None (fun j =>
         match j with
         | JNull => Ok None
         | _ => vmap Some (validate_payload cfg j)
         end) in
  Ok {| type := t; client_id := cid; payload := p |}.

(** [message.type in [MessageType.DRAW, MessageType.TEXT]] and friends. *)
Definition MessageType_eqb (a b : MessageType) : bool :=
  String.eqb (MessageType_value a) (MessageType_value b).

Record ConnectionInfo : Type := {
  info_client_id : string;
  connected_at : Z;
  last_activity : Z;
  ip_address : option string
}.

End Schemas.
Export Schemas.

(** ** Helpers ([app/utils/helpers.py]) *)
Module Helpers.

Section SafeJson.
(** [json.loads]: [None] stands for [JSONDecodeError]. *)
Variable json_loads : string -> option json.

(** [safe_json_loads(json_str)] with its default [default=None]. *)
Definition safe_json_loads (json_str : string) : json :=
  match json_loads json_str with
  | Some v => v
  | None => JNull
  end.
End SafeJson.

(** The sliding-window limiter.  Timestamps are clock readings in whole
    ticks; [window_seconds] is counted in the same unit. *)
Record RateLimiter : Type := {
  max_requests : Z;
  window_seconds : Z;
  requests : gmap string (list Z)
}.

(** [RateLimiter(max_requests, window_seconds)]. *)
Definition new_RateLimiter (max_requests window_seconds : Z) : RateLimiter :=
  {| max_requests := max_requests; window_seconds := window_seconds; requests := ∅ |}.

Definition set_requests (r : RateLimiter) (reqs : gmap string (list Z)) : RateLimiter :=
  {| max_requests := max_requests r; window_seconds := window_seconds r; requests := reqs |}.

(** The list comprehension [[t for t in history if t > cutoff_time]]. *)
Definition prune (cutoff_time : Z) (request_history : list Z) : list Z :=
  List.filter (fun req_time => req_time >? cutoff_time) request_history.

(** [is_allowed(identifier)], where [current_time] is what [time.time()]
    returns in the call. *)
Definition is_allowed (current_time : Z) (identifier : string) (r : RateLimiter)
    : bool * RateLimiter :=
  let reqs0 :=
    match requests r !! identifier with
    | Some _ => requests r
    | None => <[identifier := []]> (requests r)
    end in
  let request_history := default [] (reqs0 !! identifier) in
  let cutoff_time := current_time - window_seconds r in
  let kept := prune cutoff_time request_history in
  let reqs1 := <[identifier := kept]> reqs0 in
  if Z.of_nat (length kept) <? max_requests r
  then (true, set_requests r (<[identifier := kept ++ [current_time]]> reqs1))
  else (false, set_requests r reqs1).

(** [n] calls in a row at the same clock reading; the answers in order. *)
Fixpoint is_allowed_times (n : nat) (current_time : Z) (identifier : string) (r : RateLimiter)
    : list bool * RateLimiter :=
  match n with
  | O => ([], r)
  | S n' =>
      let '(b, r1) := is_allowed current_time identifier r in
      let '(bs, r2) := is_allowed_times n' current_time identifier r1 in
      (b :: bs, r2)
  end.

End Helpers.
Export Helpers.

(** ** The connection manager ([app/services/connection_manager.py]) *)
Module Manager.

(** A transport handle; only its identity matters. *)
Definition WebSocket : Type := nat.

(** A Python dict of JSON values, as the board log stores them. *)
Abbreviation action := (list (string * json)).

Record ConnectionManager : Type := {
  _active_connections : list (string * WebSocket);
  _connection_info : gmap string ConnectionInfo;
  _board_state : list action;
  _client_activity : gmap string Z
}.

(** [ConnectionManager()]. *)
Definition new_ConnectionManager : ConnectionManager := {|
  _active_connections := [];
  _connection_info := ∅;
  _board_state := [];
  _client_activity := ∅
|}.

(** Ordered-dict operations on [_active_connections]: the iteration order
    of [broadcast] is the insertion order. *)
Fixpoint dict_set {A : Type} (key : string) (v : A) (d : list (string * A)) : list (string * A) :=
  match d with
  | [] => [(key, v)]
  | (k, w) :: rest =>
      if String.eqb k key then (k, v) :: rest else (k, w) :: dict_set key v rest
  end.

Definition dict_del {A : Type} (key : string) (d : list (string * A)) : list (string * A) :=
  filter (fun kv => fst kv <> key) d.

Definition keys {A : Type} (d : list (string * A)) : list string := map fst d.

(** What the process has exchanged with the outside so far: the number of
    calls made to the clock and the transport, and the frames that were
    delivered, oldest first. *)
Record World : Type := {
  steps : nat;
  wire : list (WebSocket * WebSocketMessage)
}.

Record Sys : Type := {
  manager : ConnectionManager;
  world : World
}.

Definition active (s : Sys) : list (string * WebSocket) := _active_connections (manager s).

Definition set_manager (s : Sys) (m : ConnectionManager) : Sys :=
  {| manager := m; world := world s |}.

Definition set_active (m : ConnectionManager) (d : list (string * WebSocket)) : ConnectionManager :=
  {| _active_connections := d; _connection_info := _connection_info m;
     _board_state := _board_state m; _client_activity := _client_activity m |}.

Definition set_info (m : ConnectionManager) (d : gmap string ConnectionInfo) : ConnectionManager :=
  {| _active_connections := _active_connections m; _connection_info := d;
     _board_state := _board_state m; _client_activity := _client_activity m |}.

Definition set_board (m : ConnectionManager) (b : list action) : ConnectionManager :=
  {| _active_connections := _active_connections m; _connection_info := _connection_info m;
     _board_state := b; _client_activity := _client_activity m |}.

Definition set_activity (m : ConnectionManager) (d : gmap string Z) : ConnectionManager :=
  {| _active_connections := _active_connections m; _connection_info := _connection_info m;
     _board_state := _board_state m; _client_activity := d |}.

Definition touch (t : Z) (c : ConnectionInfo) : ConnectionInfo :=
  {| info_client_id := info_client_id c; connected_at := connected_at c;
     last_activity := t; ip_address := ip_address c |}.

(** [active_connections_count]. *)
Definition active_connections_count (m : ConnectionManager) : nat :=
  length (_active_connections m).

(** The [board_state] property: a copy of the log. *)
Definition board_state (m : ConnectionManager) : list action := _board_state m.

(** [add_to_board_state(action)]. *)
Definition add_to_board_state (a : action) (m : ConnectionManager) : ConnectionManager :=
  let action_type := dict_get "type" a in
  let is_type (t : MessageType) :=
    match action_type with
    | Some v => eq_str v (MessageType_value t)
    | None => false
    end in
  if is_type CLEAR then set_board m []
  else if is_type DRAW || is_type TEXT then set_board m (_board_state m ++ [a])
  else m.

(** The messages the server builds itself. *)
Definition user_count_message (n : nat) : WebSocketMessage :=
  {| type := USER_COUNT; client_id := "server";
     payload := Some (PUserCount {| count := Z.of_nat n |}) |}.

Definition board_state_message (log : list action) : WebSocketMessage :=
  {| type := BOARD_STATE; client_id := "server";
     payload := Some (PBoardState {| actions := map JObj log |}) |}.

(** [exclude_client and client_id == exclude_client]. *)
Definition excluded (exclude_client : option string) (client_id : string) : bool :=
  match exclude_client with
  | None => false
  | Some c => negb (String.eqb c "") && String.eqb client_id c
  end.

(** A state transformer over the system. *)
Definition St (A : Type) : Type := Sys -> A * Sys.

Definition ret {A : Type} (a : A) : St A := fun s => (a, s).

Definition bind {A B : Type} (m : St A) (k : A -> St B) : St B :=
  fun s => let '(a, s1) := m s in k a s1.

Notation "'let*' x := m 'in' k" := (bind m (fun x => k))
  (at level 10, x name, m at level 100, k at level 200).
Notation "m ;;; k" := (bind m (fun _ : unit => k))
  (at level 100, k at level 200, right associativity).

Definition modify (f : ConnectionManager -> ConnectionManager) : St unit :=
  fun s => (tt, set_manager s (f (manager s))).

Definition tick (w : World) : World := {| steps := S (steps w); wire := wire w |}.

Section Environment.
(** The outside world, by the number of the call: the clock reading, and
    whether an [accept] or a [send_text] on a handle goes through or
    raises. *)
Variable clock : nat -> Z.
Variable accept_ok : nat -> WebSocket -> bool.
Variable send_ok : nat -> WebSocket -> bool.

(** [time.time()]. *)
Definition time_time : St Z :=
  fun s => (clock (steps (world s)), {| manager := manager s; world := tick (world s) |}).

(** [await websocket.accept()]; [false] when it raises. *)
Definition accept (websocket : WebSocket) : St bool :=
  fun s => (accept_ok (steps (world s)) websocket,
            {| manager := manager s; world := tick (world s) |}).

(** [await websocket.send_text(message.json())]; [false] when it raises. *)
Definition send_text (websocket : WebSocket) (message : WebSocketMessage) : St bool :=
  fun s =>
    if send_ok (steps (world s)) websocket
    then (true, {| manager := manager s;
                   world := {| steps := S (steps (world s));
                               wire := wire (world s) ++ [(websocket, message)] |} |})
    else (false, {| manager := manager s; world := tick (world s) |}).

(** [_update_client_activity(client_id)]. *)
Definition _update_client_activity (client_id : string) : St unit :=
  let* t1 := time_time in
  modify (fun m => set_activity m (<[client_id := t1]> (_client_activity m))) ;;;
  fun s =>
    match _connection_info (manager s) !! client_id with
    | Some c =>
        (let* t2 := time_time in
         modify (fun m => set_info m (<[client_id := touch t2 c]> (_connection_info m)))) s
    | None => (tt, s)
    end.

(** The first loop of [broadcast]. *)
Fixpoint fan_out (message : WebSocketMessage) (exclude_client : option string)
    (items : list (string * WebSocket))
    (successful_sends : nat) (failed_clients : list string) : St (nat * list string) :=
  match items with
  | [] => ret (successful_sends, failed_clients)
  | (client_id, websocket) :: rest =>
      if excluded exclude_client client_id
      then fan_out message exclude_client rest successful_sends failed_clients
      else
        let* sent := send_text websocket message in
        if sent : bool
        then _update_client_activity client_id ;;;
             fan_out message exclude_client rest (S successful_sends) failed_clients
        else fan_out message exclude_client rest successful_sends
               (failed_clients ++ [client_id])
  end.

(** The three guarded [del] statements of [disconnect]; the clock is read
    for the logged session duration. *)
Definition remove_session (client_id : string) : St unit :=
  modify (fun m => set_active m (dict_del client_id (_active_connections m))) ;;;
  (fun s =>
     match _connection_info (manager s) !! client_id with
     | Some _ =>
         (let* _now := time_time in
          modify (fun m => set_info m (delete client_id (_connection_info m)))) s
     | None => (tt, s)
     end) ;;;
  modify (fun m => set_activity m (delete client_id (_client_activity m))).

(** The second loop of [broadcast]: [_handle_connection_error] on every
    failed client, which is [disconnect]. *)
Fixpoint handle_failed (disconnect : string -> Sys -> option Sys)
    (failed_clients : list string) (s : Sys) : option Sys :=
  match failed_clients with
  | [] => Some s
  | client_id :: rest =>
      match disconnect client_id s with
      | Some s1 => handle_failed disconnect rest s1
      | None => None
      end
  end.

(** [broadcast(message, exclude_client)], given [disconnect]. *)
Definition broadcast_with (disconnect : string -> Sys -> option Sys)
    (message : WebSocketMessage) (exclude_client : option string) (s : Sys)
    : option (nat * Sys) :=
  match active s with
  | [] => Some (O, s)
  | items =>
      let '((successful_sends, failed_clients), s1) :=
        fan_out message exclude_client items O [] s in
      match handle_failed disconnect failed_clients s1 with
      | Some s2 => Some (successful_sends, s2)
      | None => None
      end
  end.

(** [broadcast_user_count()], given [disconnect]. *)
Definition broadcast_user_count_with (disconnect : string -> Sys -> option Sys) (s : Sys)
    : option Sys :=
  match broadcast_with disconnect
          (user_count_message (active_connections_count (manager s))) None s with
  | Some (_, s1) => Some s1
  | None => None
  end.

(** [disconnect(client_id)].  [disconnect] and [broadcast] call each other
    through [_handle_connection_error]; [fuel] bounds the depth of that
    recursion and [None] means it was used up. *)
Fixpoint disconnect_fuel (fuel : nat) (client_id : string) (s : Sys) : option Sys :=
  match fuel with
  | O => None
  | S fuel' =>
      let '(_, s1) := remove_session client_id s in
      broadcast_user_count_with (disconnect_fuel fuel') s1
  end.

(** Every live session can fail at most once more, so this is enough. *)
Definition enough (s : Sys) : nat := S (length (active s)).

Definition disconnect (client_id : string) (s : Sys) : option Sys :=
  disconnect_fuel (enough s) client_id s.

Definition broadcast (message : WebSocketMessage) (exclude_client : option string) (s : Sys)
    : option (nat * Sys) :=
  broadcast_with (disconnect_fuel (enough s)) message exclude_client s.

Definition broadcast_user_count (s : Sys) : option Sys :=
  broadcast_user_count_with (disconnect_fuel (enough s)) s.

(** [_send_board_state(websocket)]; [false] when the send raises. *)
Definition _send_board_state (websocket : WebSocket) : St bool :=
  fun s => send_text websocket (board_state_message (_board_state (manager s))) s.

(** The assignments of [connect] that register the session. *)
Definition register_session (websocket : WebSocket) (client_id : string)
    (ip : option string) : St unit :=
  let* current_time := time_time in
  modify (fun m => set_active m (dict_set client_id websocket (_active_connections m))) ;;;
  modify (fun m => set_info m
    (<[client_id := {| info_client_id := client_id; connected_at := current_time;
                       last_activity := current_time; ip_address := ip |}]>
       (_connection_info m))) ;;;
  modify (fun m => set_activity m (<[client_id := current_time]> (_client_activity m))).

(** [connect(websocket, client_id, ip_address)]: every exception of the
    body is re-raised as [WebSocketException]. *)
Definition connect (websocket : WebSocket) (client_id : string) (ip : option string)
    (s : Sys) : option (result Exn unit * Sys) :=
  let '(accepted, s1) := accept websocket s in
  if accepted : bool then
    let '(_, s2) := register_session websocket client_id ip s1 in
    let '(sent, s3) :=
      match _board_state (manager s2) with
      | [] => (true, s2)
      | _ :: _ => _send_board_state websocket s2
      end in
    if sent : bool then
      match broadcast_user_count s3 with
      | Some s4 => Some (Ok tt, s4)
      | None => None
      end
    else Some (Raise (WebSocketException "Connection failed"), s3)
  else Some (Raise (WebSocketException "Connection failed"), s1).

End Environment.

End Manager.
Export Manager.

(** ** The WebSocket endpoint ([app/api/websocket.py]) *)
Module Websocket.

Section Endpoint.
Variable cfg : Settings.
Variable json_loads : string -> option json.
Variable clock : nat -> Z.
Variable send_ok : nat -> WebSocket -> bool.

Definition invalid {A : Type} (message : string) (s : Sys) : result Exn A * Sys :=
  (Raise (ValidationException message), s).

(** [_process_incoming_message(raw_data, client_id, manager)]. *)
Definition _process_incoming_message (raw_data : string) (client_id : string) (s : Sys)
    : result Exn WebSocketMessage * Sys :=
  match safe_json_loads json_loads raw_data with
  | JNull => invalid "Invalid JSON format" s
  | JObj message_data =>
      if negb (dict_mem "type" message_data) then invalid "Message type is required" s
      else if negb (dict_mem "clientId" message_data) then invalid "Client ID is required" s
      else if negb (eq_str (default JNull (dict_get "clientId" message_data)) client_id)
      then invalid "Client ID mismatch" s
      else
        match new_WebSocketMessage cfg message_data with
        | Ok message =>
            if MessageType_eqb (type message) DRAW || MessageType_eqb (type message) TEXT
            then (Ok message, set_manager s (add_to_board_state message_data (manager s)))
            else if MessageType_eqb (type message) CLEAR
            then (Ok message, set_manager s (add_to_board_state message_data (manager s)))
            else (Ok message, s)
        | Raise e =>
            invalid (String.append "Message validation failed: " e) s
        end
  | _ => invalid "Message must be a JSON object" s
  end.

(** The message of [_send_error_message(websocket, message, error_code)]. *)
Definition error_message (message error_code : string) : WebSocketMessage :=
  {| type := ERROR; client_id := "server";
     payload := Some (PError {| message := message; code := Some error_code |}) |}.

(** [_send_error_message]: a failed send is logged and dropped. *)
Definition _send_error_message (websocket : WebSocket) (message error_code : string)
    : St unit :=
  let* _sent := send_text send_ok websocket (error_message message error_code) in
  ret tt.

(** One turn of the receive loop of [websocket_endpoint], for the frame
    [raw_data] read from the connection of [client_id]. *)
Definition on_receive_text (websocket : WebSocket) (client_id : string) (raw_data : string)
    (s : Sys) : option Sys :=
  match _process_incoming_message raw_data client_id s with
  | (Ok message, s1) =>
      match broadcast clock send_ok message (Some client_id) s1 with
      | Some (_, s2) => Some s2
      | None => None
      end
  | (Raise (ValidationException message), s1) =>
      Some (snd (_send_error_message websocket message "VALIDATION_ERROR" s1))
  | (Raise _, s1) =>
      Some (snd (_send_error_message websocket "Message processing failed"
                   "PROCESSING_ERROR" s1))
  end.

End Endpoint.

End Websocket.
Export Websocket.

(** ** More of the helpers ([app/utils/helpers.py]) *)
Module Text.

(** Python's [str] operations on strings of code points below 256. *)

(** [c.isspace()], which is also the class [\s] of [re] on a [str]. *)
Definition is_space (c : ascii) : bool :=
  let n := nat_of_ascii c in
  ((9 <=? n) && (n <=? 13) || (28 <=? n) && (n <=? 32) || (n =? 133) || (n =? 160))%nat.

(** [s.lstrip()], [s.rstrip()] and [s.strip()] on the list of characters. *)
Fixpoint lstrip (l : list ascii) : list ascii :=
  match l with
  | [] => []
  | c :: rest => if is_space c then lstrip rest else l
  end.

Definition rstrip (l : list ascii) : list ascii := rev (lstrip (rev l)).

Definition strip (s : string) : string :=
  string_of_list_ascii (rstrip (lstrip (list_ascii_of_string s))).

(** [s.split(",")[0]]: what stands before the first comma. *)
Fixpoint before_comma (s : string) : string :=
  match s with
  | EmptyString => EmptyString
  | String c rest => if Ascii.eqb c "," then EmptyString else String c (before_comma rest)
  end.

(** The bound of a slice: a negative index counts from the end, and every
    index is clipped to the string. *)
Definition slice_index (k : Z) (len : nat) : nat :=
  if k <? 0 then Z.to_nat (Z.max 0 (Z.of_nat len + k)) else Nat.min (Z.to_nat k) len.

(** [s[:k]] and [s[k:]]. *)
Definition slice_to (k : Z) (s : string) : string :=
  substring 0 (slice_index k (String.length s)) s.

Definition slice_from (k : Z) (s : string) : string :=
  let start := slice_index k (String.length s) in
  substring start (String.length s - start) s.

(** [m * n] for a [str] [m]. *)
Fixpoint repeat_nat (m : string) (n : nat) : string :=
  match n with
  | O => EmptyString
  | S n' => String.append m (repeat_nat m n')
  end.

Definition repeat_str (m : string) (n : Z) : string := repeat_nat m (Z.to_nat n).

(** [truncate_string(text, max_length, suffix)]. *)
Definition truncate_string (text : string) (max_length : Z) (suffix : string) : string :=
  if Z.of_nat (String.length text) <=? max_length then text
  else String.append (slice_to (max_length - Z.of_nat (String.length suffix)) text) suffix.

(** [mask_sensitive_data(data, mask_char, visible_chars)]. *)
Definition mask_sensitive_data (data : string) (mask_char : string) (visible_chars : Z)
    : string :=
  if String.eqb data "" || (Z.of_nat (String.length data) <=? visible_chars)
  then (if String.eqb data "" then ""
        else repeat_str mask_char (Z.of_nat (String.length data)))
  else String.append
         (repeat_str mask_char (Z.of_nat (String.length data) - visible_chars))
         (slice_from (- visible_chars) data).

(** [RateLimiter.cleanup_old_entries()], where [current_time] is what
    [time.time()] returns in the call: every history is pruned at twice the
    window, and the identifiers whose history is then empty are deleted. *)
Definition cleanup_old_entries (current_time : Z) (r : RateLimiter) : RateLimiter :=
  let cutoff_time := current_time - window_seconds r * 2 in
  set_requests r
    (omap (fun request_history =>
             match prune cutoff_time request_history with
             | [] => None
             | kept => Some kept
             end)
          (requests r)).

(** The characters the first pattern removes: the two angle brackets, the
    double quote and the single quote. *)
Definition is_dangerous (c : ascii) : bool :=
  let n := nat_of_ascii c in
  ((n =? 60) || (n =? 62) || (n =? 34) || (n =? 39))%nat.

(** The substitution of one space for the pattern [\s+]: every run of
    whitespace becomes one space;
    [in_run] tells that the character before was whitespace. *)
Fixpoint collapse_spaces (in_run : bool) (l : list ascii) : list ascii :=
  match l with
  | [] => []
  | c :: rest =>
      if is_space c
      then (if in_run then collapse_spaces true rest
            else " "%char :: collapse_spaces true rest)
      else c :: collapse_spaces false rest
  end.

(** [sanitize_text_content(content, max_length)], for a [str] content. *)
Definition sanitize_text_content (content : string) (max_length : Z) : string :=
  let sanitized :=
    string_of_list_ascii
      (List.filter (fun c => negb (is_dangerous c)) (list_ascii_of_string content)) in
  let sanitized :=
    if Z.of_nat (String.length sanitized) >? max_length
    then slice_to max_length sanitized
    else sanitized in
  string_of_list_ascii
    (rstrip (lstrip (collapse_spaces false (list_ascii_of_string sanitized)))).

End Text.
Export Text.

(** ** More of the connection manager *)
Module Services.

Section MoreOperations.
Variable clock : nat -> Z.
Variable send_ok : nat -> WebSocket -> bool.

(** [send_personal_message(message, client_id)]. *)
Definition send_personal_message (message : WebSocketMessage) (client_id : string) (s : Sys)
    : option (bool * Sys) :=
  match dict_get client_id (active s) with
  | None => Some (false, s)
  | Some websocket =>
      let '(sent, s1) := send_text send_ok websocket message s in
      if sent : bool
      then Some (true, snd (_update_client_activity clock client_id s1))
      else
        match disconnect clock send_ok client_id s1 with
        | Some s2 => Some (false, s2)
        | None => None
        end
  end.

(** [get_connection_info(client_id)]. *)
Definition get_connection_info (client_id : string) (m : ConnectionManager)
    : option ConnectionInfo :=
  _connection_info m !! client_id.

(** The loop [for client_id in inactive_clients: await self.disconnect(client_id)]. *)
Fixpoint disconnect_each (clients : list string) (s : Sys) : option Sys :=
  match clients with
  | [] => Some s
  | client_id :: rest =>
      match disconnect clock send_ok client_id s with
      | Some s1 => disconnect_each rest s1
      | None => None
      end
  end.

(** The clients the sweep picks, from the items of [_client_activity]. *)
Definition inactive_clients (current_time timeout_seconds : Z) (items : list (string * Z))
    : list string :=
  map fst (List.filter (fun kv => current_time - snd kv >? timeout_seconds) items).

(** [cleanup_inactive_connections(timeout_seconds)], where [items] is
    [self._client_activity.items()] in the order the dict yields them. *)
Definition cleanup_inactive_connections (items : list (string * Z)) (timeout_seconds : Z)
    (s : Sys) : option (nat * Sys) :=
  let '(current_time, s1) := time_time clock s in
  let inactive := inactive_clients current_time timeout_seconds items in
  match disconnect_each inactive s1 with
  | Some s2 => Some (length inactive, s2)
  | None => None
  end.

End MoreOperations.

End Services.
Export Services.

(** ** The connection handler ([websocket_endpoint]) *)
Module Handler.

(** What [await websocket.receive_text()] yields: a text frame, an exception
    other than a disconnect, or [WebSocketDisconnect]. *)
Inductive Inbound : Type :=
| Frame (raw_data : string)
| Unreadable
| Disconnect.

Section Handling.
Variable cfg : Settings.
Variable json_loads : string -> option json.
Variable clock : nat -> Z.
Variable accept_ok : nat -> WebSocket -> bool.
Variable send_ok : nat -> WebSocket -> bool.

(** The address taken from the [x-forwarded-for] header, if there is one. *)
Definition forwarded_ip (forwarded_for : option string) : option string :=
  match forwarded_for with
  | Some header =>
      if String.eqb header "" then None else Some (strip (before_comma header))
  | None => None
  end.

(** The [while True] loop, on what the connection yields until it closes. *)
Fixpoint receive_loop (websocket : WebSocket) (client_id : string) (inbound : list Inbound)
    (s : Sys) : option Sys :=
  match inbound with
  | [] => Some s
  | Disconnect :: _ => Some s
  | Frame raw_data :: rest =>
      match on_receive_text cfg json_loads clock send_ok websocket client_id raw_data s with
      | Some s1 => receive_loop websocket client_id rest s1
      | None => None
      end
  | Unreadable :: rest =>
      receive_loop websocket client_id rest
        (snd (_send_error_message send_ok websocket "Message processing failed"
                "PROCESSING_ERROR" s))
  end.

(** [websocket_endpoint(websocket, client_id, manager)]: connect, serve,
    and in every case [disconnect] at the end. *)
Definition websocket_endpoint (websocket : WebSocket) (client_id : string)
    (forwarded_for : option string) (inbound : list Inbound) (s : Sys) : option Sys :=
  match connect clock accept_ok send_ok websocket client_id (forwarded_ip forwarded_for) s with
  | Some (Ok _, s1) =>
      match receive_loop websocket client_id inbound s1 with
      | Some s2 => disconnect clock send_ok client_id s2
      | None => None
      end
  | Some (Raise _, s1) => disconnect clock send_ok client_id s1
  | None => None
  end.

End Handling.

End Handler.
Export Handler.

(** ** What the properties speak about *)
Module Observations.

(** The history [is_allowed] works on for an identifier. *)
Definition history (identifier : string) (r : RateLimiter) : list Z :=
  default [] (requests r !! identifier).

(** The frames that carry [message] to the sessions [recipients]. *)
Definition deliveries (message : WebSocketMessage) (recipients : list (string * WebSocket))
    : list (WebSocket * WebSocketMessage) :=
  map (fun p => (snd p, message)) recipients.

(** A frame that is a user-count notice of the server. *)
Definition is_user_count (e : WebSocket * WebSocketMessage) : Prop :=
  exists n : nat, snd e = user_count_message n.

Definition board (s : Sys) : list action := _board_state (manager s).
Definition sent (s : Sys) : list (WebSocket * WebSocketMessage) := wire (world s).
Definition info (s : Sys) : gmap string ConnectionInfo := _connection_info (manager s).
Definition activity (s : Sys) : gmap string Z := _client_activity (manager s).

(** The identifier has no entry in any of the three registry dicts. *)
Definition unregistered (client_id : string) (s : Sys) : Prop :=
  (client_id ∉ keys (active s)) /\ info s !! client_id = None /\ activity s !! client_id = None.

(** The state after a frame went out, and after a send raised. *)
Definition delivered (websocket : WebSocket) (message : WebSocketMessage) (s : Sys) : Sys :=
  {| manager := manager s;
     world := {| steps := S (steps (world s));
                 wire := wire (world s) ++ [(websocket, message)] |} |}.

Definition undelivered (s : Sys) : Sys :=
  {| manager := manager s; world := tick (world s) |}.

(** What [broadcast] needs to know of the [disconnect] it is given. *)
Definition disconnect_spec (disc : string -> Sys -> option Sys) : Prop :=
  forall (client_id : string) (s s' : Sys),
    disc client_id s = Some s' ->
    active s' `sublist_of` dict_del client_id (active s) /\
    board s' = board s /\
    (exists evs, sent s' = sent s ++ evs /\ Forall is_user_count evs) /\
    (forall c, unregistered c s -> unregistered c s').

(** [disc] answers whenever fewer than [k] sessions would remain. *)
Definition answers_below (k : nat) (disc : string -> Sys -> option Sys) : Prop :=
  forall (client_id : string) (s : Sys),
    (length (dict_del client_id (active s)) < k)%nat -> is_Some (disc client_id s).

(** Two metadata tables that differ in last-activity stamps only. *)
Definition same_sessions (i1 i2 : gmap string ConnectionInfo) : Prop :=
  forall c, touch 0 <$> (i1 !! c) = touch 0 <$> (i2 !! c).

End Observations.
Export Observations.

(** ** Concrete states and environments *)
Module Scenarios.

(** A pen stroke of one point, as [client_id] sends it. *)
Definition stroke (client_id : string) : action :=
  [("type", JStr "draw"); ("clientId", JStr client_id);
   ("payload", JObj [("tool", JStr "pen"); ("color", JStr "#112233"); ("size", JInt 4);
                     ("points", JArr [JObj [("x", JInt 1); ("y", JInt 2)]])])].

Definition session_info (client_id : string) : ConnectionInfo :=
  {| info_client_id := client_id; connected_at := 0; last_activity := 0;
     ip_address := None |}.

(** Sessions [a], [b] and [c] on the handles 1, 2 and 3, connected at time 0,
    with the given board log and nothing on the wire yet. *)
Definition three_sessions (log : list action) : Sys :=
  {| manager :=
       {| _active_connections := [("a", 1%nat); ("b", 2%nat); ("c", 3%nat)];
          _connection_info :=
            <["a" := session_info "a"]>
              (<["b" := session_info "b"]> (<["c" := session_info "c"]> ∅));
          _board_state := log;
          _client_activity := <["a" := 0]> (<["b" := 0]> (<["c" := 0]> ∅)) |};
     world := {| steps := 0; wire := [] |} |}.

(** A clock that stands at 5, and a transport that never fails. *)
Definition at_five (n : nat) : Z := 5.
Definition always (n : nat) (w : WebSocket) : bool := true.

(** The state an operation leaves, [s] itself if it did not answer. *)
Definition after {A : Type} (run : option (A * Sys)) (s : Sys) : Sys :=
  match run with
  | Some (_, s') => s'
  | None => s
  end.

(** A stroke of [n] points, as the client puts it on the wire. *)
Definition stroke_of (client_id : string) (n : nat) : list (string * json) :=
  [("type", JStr "draw"); ("clientId", JStr client_id);
   ("payload", JObj [("tool", JStr "pen"); ("color", JStr "#112233"); ("size", JInt 4);
                     ("points", JArr (repeat (JObj [("x", JInt 1); ("y", JInt 2)]) n))])].

(** A parser that reads every frame as the given value. *)
Definition reads_as (v : json) (text : string) : option json := Some v.

(** A transport on which every call fails. *)
Definition never (n : nat) (w : WebSocket) : bool := false.

End Scenarios.
Export Scenarios.

(** ** Sequences of calls *)
Module Runs.

(** A series of [is_allowed] calls, each with its clock reading and its
    identifier; the answers in order and the limiter left behind. *)
Fixpoint replay (calls : list (Z * string)) (r : RateLimiter) : list bool * RateLimiter :=
  match calls with
  | [] => ([], r)
  | (t, identifier) :: rest =>
      let '(b, r1) := is_allowed t identifier r in
      let '(bs, r2) := replay rest r1 in
      (b :: bs, r2)
  end.

(** The clock readings of the admitted calls of one identifier. *)
Fixpoint admitted (identifier : string) (calls : list (Z * string)) (answers : list bool)
    : list Z :=
  match calls, answers with
  | (t, i) :: calls', b :: answers' =>
      if b && String.eqb i identifier
      then t :: admitted identifier calls' answers'
      else admitted identifier calls' answers'
  | _, _ => []
  end.

(** The clock never goes back: the readings do not decrease, from [t0] on. *)
Fixpoint nondecreasing_from (t0 : Z) (calls : list (Z * string)) : Prop :=
  match calls with
  | [] => True
  | (t, _) :: rest => t0 <= t /\ nondecreasing_from t rest
  end.

(** The reading of the last call, [t0] if there is none. *)
Fixpoint last_time (t0 : Z) (calls : list (Z * string)) : Z :=
  match calls with
  | [] => t0
  | (t, _) :: rest => last_time t rest
  end.

(** No history is longer than the limit allows. *)
Definition bounded (r : RateLimiter) : Prop :=
  forall identifier, Z.of_nat (length (history identifier r)) <= max_requests r.

End Runs.
Export Runs.

(** ** More of what the properties speak about *)
Module MoreObservations.

(** The sessions [broadcast] does not skip. *)
Definition addressed (exclude_client : option string) (items : list (string * WebSocket))
    : list (string * WebSocket) :=
  List.filter (fun p => negb (excluded exclude_client (fst p))) items.

(** The three dicts of the registry list the same identifiers, each once. *)
Definition consistent (s : Sys) : Prop :=
  NoDup (keys (active s)) /\
  forall c : string,
    (c ∈ keys (active s) <-> is_Some (info s !! c)) /\
    (c ∈ keys (active s) <-> is_Some (activity s !! c)).


End MoreObservations.
Export MoreObservations.

(** * Properties *)

(** ** Admission control *)
Module RateLimiterProps.

(** [is_allowed] in one step: the pruned history is stored, with the clock
    reading appended when the call is admitted. *)
Lemma is_allowed_eq (t : Z) (identifier : string) (r : RateLimiter) :
  is_allowed t identifier r =
    let kept := prune (t - window_seconds r) (history identifier r) in
    if Z.of_nat (length kept) <? max_requests r
    then (true, set_requests r (<[identifier := kept ++ [t]]> (requests r)))
    else (false, set_requests r (<[identifier := kept]> (requests r))).
Proof.
  unfold is_allowed, history.
  destruct (requests r !! identifier) as [l|] eqn:Hl; simpl.
  - rewrite Hl; simpl. rewrite insert_insert_eq. reflexivity.
  - rewrite lookup_insert_eq; simpl. rewrite !insert_insert_eq. reflexivity.
Qed.

Lemma prune_repeat_keep (cutoff t : Z) (n : nat) :
  cutoff < t -> prune cutoff (repeat t n) = repeat t n.
Proof.
  intros Hlt. induction n as [|n IH]; simpl; [reflexivity|].
  unfold prune in *. simpl. destruct (Z.gtb_spec t cutoff); [|lia]. now rewrite IH.
Qed.

Lemma prune_repeat_drop (cutoff t : Z) (n : nat) :
  t <= cutoff -> prune cutoff (repeat t n) = [].
Proof.
  intros Hle. induction n as [|n IH]; simpl; [reflexivity|].
  unfold prune in *. simpl. destruct (Z.gtb_spec t cutoff); [lia|]. exact IH.
Qed.

Lemma history_set (identifier : string) (r : RateLimiter) (l : list Z) :
  history identifier (set_requests r (<[identifier := l]> (requests r))) = l.
Proof. unfold history; simpl. now rewrite lookup_insert_eq. Qed.

(** [k] admitted calls at one instant, starting with [j] requests of the
    identifier inside the window. *)
Lemma is_allowed_times_admits (now : Z) (identifier : string) (k : nat) :
  forall (j : nat) (r : RateLimiter),
    0 < window_seconds r ->
    prune (now - window_seconds r) (history identifier r) = repeat now j ->
    Z.of_nat (j + k) <= max_requests r ->
    let out := is_allowed_times k now identifier r in
    fst out = repeat true k /\
    max_requests (snd out) = max_requests r /\
    window_seconds (snd out) = window_seconds r /\
    prune (now - window_seconds r) (history identifier (snd out)) = repeat now (j + k).
Proof.
  induction k as [|k IH]; intros j r Hw Hj Hmax; simpl.
  - rewrite Nat.add_0_r. auto.
  - rewrite is_allowed_eq; simpl. rewrite Hj, repeat_length.
    destruct (Z.ltb_spec (Z.of_nat j) (max_requests r)) as [_|Hge]; [|lia].
    set (r1 := set_requests r _).
    specialize (IH (S j) r1).
    assert (Hr1 : prune (now - window_seconds r1) (history identifier r1) = repeat now (S j)).
    { subst r1. rewrite history_set. simpl window_seconds.
      rewrite <- repeat_cons. change (now :: repeat now j) with (repeat now (S j)).
      apply prune_repeat_keep. lia. }
    destruct (is_allowed_times k now identifier r1) as [bs r2] eqn:Hrun.
    simpl in *. destruct IH as (Hbs & Hm & Hwin & Hh); [exact Hw | exact Hr1 | lia |].
    rewrite Hbs, Hm, Hwin, Hh. replace (j + S k)%nat with (S j + k)%nat by lia. auto.
Qed.

(** What a refused call does to the limiter, in any state. *)
Lemma is_allowed_refused (t : Z) (identifier : string) (r : RateLimiter) :
  fst (is_allowed t identifier r) = false ->
  snd (is_allowed t identifier r) =
    set_requests r
      (<[identifier := prune (t - window_seconds r) (history identifier r)]> (requests r)).
Proof.
  rewrite is_allowed_eq; simpl.
  destruct (_ <? _); simpl; [discriminate | reflexivity].
Qed.

(** C5.  With a positive window and a positive limit, and no request of the
    identifier inside the current window: [max_requests] calls in a row at
    one instant are all admitted; the next call at that instant is refused;
    the refused call stores the pruned history of the identifier and nothing
    else (no timestamp is appended, the other identifiers and the limits are
    untouched); and any call made [window_seconds] or more later is admitted
    again. *)
Theorem is_allowed_sliding_window (r : RateLimiter) (identifier : string) (now : Z) :
  0 < window_seconds r ->
  0 < max_requests r ->
  prune (now - window_seconds r) (history identifier r) = [] ->
  let n := Z.to_nat (max_requests r) in
  let admitted := is_allowed_times n now identifier r in
  let refused := is_allowed now identifier (snd admitted) in
  fst admitted = repeat true n /\
  fst refused = false /\
  snd refused =
    set_requests (snd admitted)
      (<[identifier := prune (now - window_seconds r) (history identifier (snd admitted))]>
         (requests (snd admitted))) /\
  forall later : Z,
    now + window_seconds r <= later ->
    fst (is_allowed later identifier (snd refused)) = true.
Proof.
  intros Hw Hmax Hfresh n admitted refused.
  destruct (is_allowed_times_admits now identifier n 0%nat r Hw Hfresh) as (Hbs & Hm & Hwin & Hh).
  { subst n. simpl. lia. }
  fold admitted in Hbs, Hm, Hwin, Hh. simpl in Hh.
  assert (Hdenied : fst refused = false).
  { subst refused. rewrite is_allowed_eq; simpl. rewrite Hwin, Hh, repeat_length, Hm.
    subst n. destruct (Z.ltb_spec (Z.of_nat (Z.to_nat (max_requests r))) (max_requests r)); [lia|].
    reflexivity. }
  assert (Hstate : snd refused =
    set_requests (snd admitted)
      (<[identifier := prune (now - window_seconds r) (history identifier (snd admitted))]>
         (requests (snd admitted)))).
  { subst refused. rewrite is_allowed_refused by exact Hdenied. now rewrite Hwin. }
  repeat split; try assumption.
  intros later Hlater. rewrite is_allowed_eq; simpl.
  rewrite Hstate. rewrite history_set. simpl window_seconds. simpl max_requests.
  rewrite Hh, Hwin, Hm.
  rewrite prune_repeat_drop by lia. simpl length.
  destruct (Z.ltb_spec (Z.of_nat 0) (max_requests r)); [reflexivity | lia].
Qed.

(** The scenario of the specification: ten requests of [203.0.113.7] inside
    a 60-second window, then an eleventh. *)
Lemma is_allowed_sliding_window_witness :
  let r := new_RateLimiter 10 60 in
  let admitted := is_allowed_times 10 1000 "203.0.113.7" r in
  let refused := is_allowed 1000 "203.0.113.7" (snd admitted) in
  fst admitted = repeat true 10 /\
  fst refused = false /\
  snd refused =
    set_requests (snd admitted)
      (<["203.0.113.7" := prune (1000 - 60) (history "203.0.113.7" (snd admitted))]>
         (requests (snd admitted))) /\
  forall later : Z,
    1000 + 60 <= later ->
    fst (is_allowed later "203.0.113.7" (snd refused)) = true.
Proof.
  apply (is_allowed_sliding_window (new_RateLimiter 10 60) "203.0.113.7" 1000).
  - simpl. lia.
  - simpl. lia.
  - reflexivity.
Defined.

End RateLimiterProps.

(** ** The board log *)
Module BoardProps.

(** C6.  On an action whose [type] is the value of the message type [t],
    [add_to_board_state] empties the log for [clear] (so that the snapshot
    read right after is empty), appends exactly that action at the end for
    [draw] and [text], and leaves the log as it was for every other type;
    the session registry is never touched. *)
Theorem add_to_board_state_by_type (t : MessageType) (a : action) (m : ConnectionManager) :
  dict_get "type" a = Some (JStr (MessageType_value t)) ->
  board_state (add_to_board_state a m) =
    match t with
    | CLEAR => []
    | DRAW | TEXT => board_state m ++ [a]
    | _ => board_state m
    end /\
  _active_connections (add_to_board_state a m) = _active_connections m /\
  _connection_info (add_to_board_state a m) = _connection_info m /\
  _client_activity (add_to_board_state a m) = _client_activity m.
Proof.
  intros Htype. unfold add_to_board_state, board_state. rewrite Htype.
  destruct t; simpl; auto.
Qed.

Lemma add_to_board_state_by_type_witness :
  let a := [("type", JStr "clear"); ("clientId", JStr "a")] in
  let m := set_board new_ConnectionManager [[("type", JStr "draw")]] in
  board_state (add_to_board_state a m) = [] /\
  _active_connections (add_to_board_state a m) = _active_connections m /\
  _connection_info (add_to_board_state a m) = _connection_info m /\
  _client_activity (add_to_board_state a m) = _client_activity m.
Proof.
  apply (add_to_board_state_by_type CLEAR). reflexivity.
Defined.

(** The two messages the manager builds are what the constructor returns
    for the keyword arguments written in the source. *)
Lemma user_count_message_built (cfg : Settings) (n : nat) :
  new_WebSocketMessage cfg
    [("type", JStr (MessageType_value USER_COUNT)); ("client_id", JStr "server");
     ("payload", JObj [("count", JInt (Z.of_nat n))])]
  = Ok (user_count_message n).
Proof.
  unfold new_WebSocketMessage, required, optional, validate_payload. simpl.
  unfold required. simpl.
  destruct (Z.leb_spec 0 (Z.of_nat n)); [reflexivity | lia].
Qed.

Lemma traverse_as_dict (log : list action) :
  traverse as_dict (map JObj log) = Ok (map JObj log).
Proof. induction log as [|a log IH]; simpl; [reflexivity | now rewrite IH]. Qed.

Lemma board_state_message_built (cfg : Settings) (log : list action) :
  new_WebSocketMessage cfg
    [("type", JStr (MessageType_value BOARD_STATE)); ("client_id", JStr "server");
     ("payload", JObj [("actions", JArr (map JObj log))])]
  = Ok (board_state_message log).
Proof.
  unfold new_WebSocketMessage, required, optional, validate_payload. simpl.
  unfold required, optional. simpl. rewrite traverse_as_dict. reflexivity.
Qed.

End BoardProps.

(** ** The session registry and the dispatcher *)
Module ManagerProps.

Lemma dict_del_sublist {A : Type} (key : string) (d : list (string * A)) :
  dict_del key d `sublist_of` d.
Proof. unfold dict_del. apply sublist_filter. Qed.

Lemma keys_sublist {A : Type} (d1 d2 : list (string * A)) :
  d1 `sublist_of` d2 -> forall k, k ∈ keys d1 -> k ∈ keys d2.
Proof.
  intros Hsub k Hk. unfold keys in *.
  apply list_elem_of_fmap in Hk as (p & -> & Hp).
  apply list_elem_of_fmap. exists p. split; [reflexivity|].
  eapply elem_of_sublist; eassumption.
Qed.

Lemma dict_del_not_key {A : Type} (key : string) (d l : list (string * A)) :
  l `sublist_of` dict_del key d -> key ∉ keys l.
Proof.
  intros Hsub Hk. unfold keys in Hk.
  apply list_elem_of_fmap in Hk as (p & Hkey & Hp).
  pose proof (elem_of_sublist _ _ _ Hp Hsub) as Hin.
  unfold dict_del in Hin. apply list_elem_of_filter in Hin as [Hne _].
  congruence.
Qed.

Lemma dict_del_absent {A : Type} (key : string) (d : list (string * A)) :
  key ∉ keys d -> dict_del key d = d.
Proof.
  unfold dict_del, keys. induction d as [|[k v] d IH]; intros Hk; [reflexivity|].
  rewrite filter_cons. simpl in *. rewrite not_elem_of_cons in Hk. destruct Hk as [Hne Hk].
  destruct (decide (k <> key)) as [_|Heq]; [|exfalso; apply Heq; congruence].
  now rewrite IH.
Qed.

Lemma dict_del_shrinks {A : Type} (key : string) (d : list (string * A)) :
  key ∈ keys d -> (length (dict_del key d) < length d)%nat.
Proof.
  unfold dict_del, keys. induction d as [|[k v] d IH]; intros Hk.
  - inversion Hk.
  - rewrite filter_cons. simpl in *.
    pose proof (length_filter (fun kv : string * A => kv.1 <> key) d) as Hle.
    destruct (decide (k <> key)) as [Hne|_]; simpl.
    + apply elem_of_cons in Hk as [Heq|Hk]; [congruence|]. specialize (IH Hk). lia.
    + lia.
Qed.

(** Split a conjunction into its parts, without introducing anything. *)
Ltac splits := repeat match goal with |- _ /\ _ => split end.

Section Props.
Variable clock : nat -> Z.
Variable accept_ok : nat -> WebSocket -> bool.
Variable send_ok : nat -> WebSocket -> bool.

(** *** What one step touches *)

Lemma _update_client_activity_frame (client_id : string) (s : Sys) :
  let s' := snd (_update_client_activity clock client_id s) in
  active s' = active s /\ board s' = board s /\ sent s' = sent s /\
  forall c, c <> client_id -> info s' !! c = info s !! c /\ activity s' !! c = activity s !! c.
Proof.
  unfold _update_client_activity, bind, time_time, modify, info, activity; simpl.
  destruct (_connection_info (manager s) !! client_id) eqn:Hinfo; simpl;
    splits; auto; intros other Hother; rewrite ?lookup_insert_ne by congruence; auto.
Qed.

Lemma remove_session_effect (client_id : string) (s : Sys) :
  let s' := snd (remove_session clock client_id s) in
  active s' = dict_del client_id (active s) /\ board s' = board s /\ sent s' = sent s /\
  info s' = delete client_id (info s) /\ activity s' = delete client_id (activity s).
Proof.
  unfold remove_session, bind, time_time, modify, info, activity; simpl.
  destruct (_connection_info (manager s) !! client_id) eqn:Hinfo; simpl;
    splits; auto.
  symmetry. now apply delete_id.
Qed.

(** *** The delivery loop *)

Lemma fan_out_cons (message : WebSocketMessage) (exclude_client : option string)
    (client_id : string) (websocket : WebSocket) (rest : list (string * WebSocket))
    (n0 : nat) (f0 : list string) (s : Sys) :
  fan_out clock send_ok message exclude_client ((client_id, websocket) :: rest) n0 f0 s =
    if excluded exclude_client client_id
    then fan_out clock send_ok message exclude_client rest n0 f0 s
    else if send_ok (steps (world s)) websocket
    then fan_out clock send_ok message exclude_client rest (S n0) f0
           (snd (_update_client_activity clock client_id (delivered websocket message s)))
    else fan_out clock send_ok message exclude_client rest n0 (f0 ++ [client_id])
           (undelivered s).
Proof.
  simpl. destruct (excluded exclude_client client_id); [reflexivity|].
  unfold bind at 1. unfold send_text.
  destruct (send_ok (steps (world s)) websocket); [|reflexivity].
  unfold bind at 1. fold (delivered websocket message s).
  now destruct (_update_client_activity clock client_id (delivered websocket message s)) as [[] s2].
Qed.

Lemma fan_out_spec (message : WebSocketMessage) (exclude_client : option string)
    (items : list (string * WebSocket)) :
  forall (n0 : nat) (f0 : list string) (s : Sys),
    exists (recipients : list (string * WebSocket)) (new_failed : list string),
      let out := fan_out clock send_ok message exclude_client items n0 f0 s in
      fst out = ((n0 + length recipients)%nat, f0 ++ new_failed) /\
      sent (snd out) = sent s ++ deliveries message recipients /\
      recipients `sublist_of` items /\
      Forall (fun p => excluded exclude_client (fst p) = false) recipients /\
      Forall (fun f => f ∈ keys items) new_failed /\
      (forall p, p ∈ items -> excluded exclude_client (fst p) = false ->
                 p ∈ recipients \/ fst p ∈ new_failed) /\
      active (snd out) = active s /\ board (snd out) = board s /\
      (forall c, c ∉ keys items ->
                 info (snd out) !! c = info s !! c /\ activity (snd out) !! c = activity s !! c).
Proof.
  induction items as [|[client_id websocket] rest IH]; intros n0 f0 s.
  - exists [], []. simpl. rewrite Nat.add_0_r, !app_nil_r.
    splits; auto; try (intros p Hp; inversion Hp).
  - rewrite fan_out_cons. destruct (excluded exclude_client client_id) eqn:Hex.
    + destruct (IH n0 f0 s)
        as (rcp & nf & Hout & Hsent & Hsub & Hnx & Hkeys & Hall & Hact & Hb & Hfr).
      exists rcp, nf. cbv zeta in *. splits; auto.
      * now apply sublist_cons.
      * eapply Forall_impl; [exact Hkeys|]. intros f Hf. simpl. now apply elem_of_cons; right.
      * intros p Hp Hpx. apply elem_of_cons in Hp as [->|Hp]; [simpl in Hpx; congruence|].
        now apply Hall.
      * intros c Hc. simpl in Hc. apply not_elem_of_cons in Hc as [_ Hc]. now apply Hfr.
    + destruct (send_ok (steps (world s)) websocket) eqn:Hsend.
      * set (s1 := delivered websocket message s).
        pose proof (_update_client_activity_frame client_id s1) as Hupd.
        set (s2 := snd (_update_client_activity clock client_id s1)) in *.
        simpl in Hupd. destruct Hupd as (Hact2 & Hb2 & Hsent2 & Hfr2).
        destruct (IH (S n0) f0 s2)
          as (rcp & nf & Hout & Hsent & Hsub & Hnx & Hkeys & Hall & Hact & Hb & Hfr).
        exists ((client_id, websocket) :: rcp), nf. cbv zeta in *. splits.
        -- rewrite Hout. simpl. f_equal. lia.
        -- rewrite Hsent, Hsent2. unfold sent, s1; simpl. now rewrite <- app_assoc.
        -- now apply sublist_skip.
        -- constructor; auto.
        -- eapply Forall_impl; [exact Hkeys|]. intros f Hf. simpl. now apply elem_of_cons; right.
        -- intros p Hp Hpx. apply elem_of_cons in Hp as [->|Hp].
           ++ left. now apply elem_of_cons; left.
           ++ destruct (Hall p Hp Hpx) as [Hr|Hf]; [left|right; exact Hf].
              now apply elem_of_cons; right.
        -- now rewrite Hact, Hact2.
        -- now rewrite Hb, Hb2.
        -- intros c Hc. simpl in Hc. apply not_elem_of_cons in Hc as [Hne Hc].
           destruct (Hfr c Hc) as [-> ->]. now apply Hfr2.
      * set (s1 := undelivered s).
        destruct (IH n0 (f0 ++ [client_id]) s1)
          as (rcp & nf & Hout & Hsent & Hsub & Hnx & Hkeys & Hall & Hact & Hb & Hfr).
        exists rcp, (client_id :: nf). cbv zeta in *. splits; auto.
        -- rewrite Hout. now rewrite <- app_assoc.
        -- now apply sublist_cons.
        -- constructor; [simpl; now apply elem_of_cons; left|].
           eapply Forall_impl; [exact Hkeys|]. intros f Hf. simpl. now apply elem_of_cons; right.
        -- intros p Hp Hpx. apply elem_of_cons in Hp as [->|Hp].
           ++ right. simpl. now apply elem_of_cons; left.
           ++ destruct (Hall p Hp Hpx) as [Hr|Hf]; [left; exact Hr|right].
              now apply elem_of_cons; right.
        -- intros c Hc. simpl in Hc. apply not_elem_of_cons in Hc as [Hne Hc]. now apply Hfr.
Qed.

(** *** Deregistration and the cleanup loop *)

Lemma handle_failed_spec (disc : string -> Sys -> option Sys) :
  disconnect_spec disc ->
  forall (failed : list string) (s s' : Sys),
    handle_failed disc failed s = Some s' ->
    active s' `sublist_of` active s /\
    Forall (fun f => f ∉ keys (active s')) failed /\
    board s' = board s /\
    (exists evs, sent s' = sent s ++ evs /\ Forall is_user_count evs) /\
    (forall c, unregistered c s -> unregistered c s').
Proof.
  intros Hdisc. induction failed as [|f rest IH]; intros s s' Hrun; simpl in Hrun.
  - injection Hrun as <-. splits; auto. exists []. now rewrite app_nil_r.
  - destruct (disc f s) as [s1|] eqn:Hf; [|discriminate].
    destruct (Hdisc f s s1 Hf) as (Hsub1 & Hb1 & (evs1 & Hs1 & Hn1) & Hun1).
    destruct (IH s1 s' Hrun) as (Hsub & Hgone & Hb & (evs & Hs & Hn) & Hun).
    splits.
    + etransitivity; [exact Hsub|]. etransitivity; [exact Hsub1|]. apply dict_del_sublist.
    + constructor; [|exact Hgone].
      apply (dict_del_not_key f (active s)). etransitivity; [exact Hsub|exact Hsub1].
    + congruence.
    + exists (evs1 ++ evs). split; [|now apply Forall_app].
      now rewrite Hs, Hs1, app_assoc.
    + auto.
Qed.

Lemma broadcast_with_spec (disc : string -> Sys -> option Sys)
    (message : WebSocketMessage) (exclude_client : option string) (s s' : Sys) (n : nat) :
  disconnect_spec disc ->
  broadcast_with clock send_ok disc message exclude_client s = Some (n, s') ->
  exists (recipients : list (string * WebSocket)) (notices : list (WebSocket * WebSocketMessage)),
    n = length recipients /\
    recipients `sublist_of` active s /\
    Forall (fun p => excluded exclude_client (fst p) = false) recipients /\
    sent s' = sent s ++ deliveries message recipients ++ notices /\
    Forall is_user_count notices /\
    (forall p, p ∈ active s -> excluded exclude_client (fst p) = false ->
               p ∈ recipients \/ fst p ∉ keys (active s')) /\
    active s' `sublist_of` active s /\
    board s' = board s /\
    (forall c, unregistered c s -> unregistered c s').
Proof.
  intros Hdisc. unfold broadcast_with.
  destruct (active s) as [|item items] eqn:Hitems.
  - intros [= <- <-]. exists [], []. rewrite Hitems. simpl. rewrite app_nil_r.
    splits; auto; try (intros p Hp; inversion Hp).
  - destruct (fan_out_spec message exclude_client (item :: items) O [] s)
      as (rcp & nf & Hout & Hsent & Hsub & Hnx & Hkeys & Hall & Hact & Hb & Hfr).
    destruct (fan_out clock send_ok message exclude_client (item :: items) O [] s)
      as [[sends failed] s1].
    simpl in Hout, Hsent, Hact, Hb, Hfr. injection Hout as -> ->.
    destruct (handle_failed disc nf s1) as [s2|] eqn:Hclean; [|discriminate].
    intros [= <- <-].
    destruct (handle_failed_spec disc Hdisc nf s1 s2 Hclean)
      as (Hsub2 & Hgone & Hb2 & (evs & Hs2 & Hn2) & Hun2).
    exists rcp, evs. splits; auto.
    + now rewrite Hs2, Hsent, app_assoc.
    + intros p Hp Hpx. destruct (Hall p Hp Hpx) as [Hr|Hf]; [now left|right].
      rewrite Forall_forall in Hgone. now apply Hgone.
    + now rewrite Hact, Hitems in Hsub2.
    + congruence.
    + intros c (Hk & Hi & Ha). apply Hun2. unfold unregistered.
      rewrite Hact, Hitems. rewrite Hitems in Hk.
      destruct (Hfr c Hk) as [-> ->]. auto.
Qed.

Lemma disconnect_fuel_spec (fuel : nat) :
  disconnect_spec (disconnect_fuel clock send_ok fuel).
Proof.
  induction fuel as [|fuel IH]; intros client_id s s' Hrun; simpl in Hrun; [discriminate|].
  pose proof (remove_session_effect client_id s) as Hrem.
  destruct (remove_session clock client_id s) as [[] s1]. simpl in Hrem.
  destruct Hrem as (Hact1 & Hb1 & Hs1 & Hi1 & Ha1).
  unfold broadcast_user_count_with in Hrun.
  destruct (broadcast_with _ _ _ _ _ s1) as [[n s2]|] eqn:Hb; [|discriminate].
  injection Hrun as ->.
  destruct (broadcast_with_spec _ _ _ _ _ _ IH Hb)
    as (rcp & evs & _ & _ & _ & Hsent & Hn & _ & Hsub & Hboard & Hun).
  splits.
  - now rewrite <- Hact1.
  - congruence.
  - exists (deliveries (user_count_message (active_connections_count (manager s1))) rcp ++ evs).
    split; [now rewrite Hsent, Hs1|].
    apply Forall_app. split; [|exact Hn].
    unfold deliveries. apply Forall_fmap, Forall_true. intros p. now eexists.
  - intros c (Hk & Hi & Ha). apply Hun. unfold unregistered. rewrite Hact1, Hi1, Ha1.
    splits.
    + intros Hc. apply Hk. eapply keys_sublist; [apply dict_del_sublist|exact Hc].
    + destruct (decide (client_id = c)) as [->|Hne];
        [apply lookup_delete_eq | now rewrite lookup_delete_ne].
    + destruct (decide (client_id = c)) as [->|Hne];
        [apply lookup_delete_eq | now rewrite lookup_delete_ne].
Qed.

(** After [disconnect] the identifier is in none of the registry dicts. *)
Lemma disconnect_fuel_unregisters (fuel : nat) (client_id : string) (s s' : Sys) :
  disconnect_fuel clock send_ok fuel client_id s = Some s' -> unregistered client_id s'.
Proof.
  destruct fuel as [|fuel]; simpl; [discriminate|].
  pose proof (remove_session_effect client_id s) as Hrem.
  destruct (remove_session clock client_id s) as [[] s1]. simpl in Hrem.
  destruct Hrem as (Hact1 & Hb1 & Hs1 & Hi1 & Ha1).
  unfold broadcast_user_count_with.
  destruct (broadcast_with _ _ _ _ _ s1) as [[n s2]|] eqn:Hb; [|discriminate].
  intros [= <-].
  destruct (broadcast_with_spec _ _ _ _ _ _ (disconnect_fuel_spec fuel) Hb)
    as (_ & _ & _ & _ & _ & _ & _ & _ & _ & _ & Hun).
  apply Hun. unfold unregistered. rewrite Hact1, Hi1, Ha1. splits.
  - apply (dict_del_not_key client_id (active s)). reflexivity.
  - apply lookup_delete_eq.
  - apply lookup_delete_eq.
Qed.

(** *** The recursion ends *)

Lemma handle_failed_total_below (disc : string -> Sys -> option Sys) (k : nat) :
  disconnect_spec disc -> answers_below k disc ->
  forall (failed : list string) (s : Sys),
    (length (active s) < k)%nat -> is_Some (handle_failed disc failed s).
Proof.
  intros Hspec Hans. induction failed as [|f rest IH]; intros s Hlen; simpl; [eauto|].
  pose proof (sublist_length _ _ (dict_del_sublist f (active s))) as Hdel.
  destruct (Hans f s) as [s1 Hs1]; [lia|]. rewrite Hs1.
  apply IH. destruct (Hspec f s s1 Hs1) as (Hsub & _).
  apply sublist_length in Hsub. lia.
Qed.

Lemma handle_failed_total (disc : string -> Sys -> option Sys) (k : nat) :
  disconnect_spec disc -> answers_below k disc ->
  forall (failed : list string) (s : Sys),
    Forall (fun f => f ∈ keys (active s)) failed ->
    (length (active s) <= k)%nat ->
    is_Some (handle_failed disc failed s).
Proof.
  intros Hspec Hans [|f rest] s Hkeys Hlen; simpl; [eauto|].
  apply Forall_cons in Hkeys as [Hf _].
  pose proof (dict_del_shrinks f (active s) Hf) as Hdel.
  destruct (Hans f s) as [s1 Hs1]; [lia|]. rewrite Hs1.
  apply (handle_failed_total_below disc k Hspec Hans).
  destruct (Hspec f s s1 Hs1) as (Hsub & _).
  apply sublist_length in Hsub. lia.
Qed.

Lemma broadcast_with_total (disc : string -> Sys -> option Sys) (k : nat)
    (message : WebSocketMessage) (exclude_client : option string) (s : Sys) :
  disconnect_spec disc -> answers_below k disc ->
  (length (active s) <= k)%nat ->
  is_Some (broadcast_with clock send_ok disc message exclude_client s).
Proof.
  intros Hspec Hans Hlen. unfold broadcast_with.
  destruct (active s) as [|item items] eqn:Hitems; [eauto|].
  destruct (fan_out_spec message exclude_client (item :: items) O [] s)
    as (rcp & nf & Hout & _ & _ & _ & Hkeys & _ & Hact & _).
  destruct (fan_out clock send_ok message exclude_client (item :: items) O [] s)
    as [[sends failed] s1].
  simpl in Hout, Hact. injection Hout as -> ->.
  destruct (handle_failed_total disc k Hspec Hans nf s1) as [s2 Hs2].
  - now rewrite Hact, Hitems.
  - now rewrite Hact, Hitems.
  - rewrite Hs2. eauto.
Qed.

Lemma disconnect_fuel_total (fuel : nat) :
  answers_below fuel (disconnect_fuel clock send_ok fuel).
Proof.
  induction fuel as [|fuel IH]; intros client_id s Hlen; [lia|]. simpl.
  pose proof (remove_session_effect client_id s) as Hrem.
  destruct (remove_session clock client_id s) as [[] s1]. simpl in Hrem.
  destruct Hrem as (Hact1 & _).
  unfold broadcast_user_count_with.
  destruct (broadcast_with_total (disconnect_fuel clock send_ok fuel) fuel
              (user_count_message (active_connections_count (manager s1))) None s1
              (disconnect_fuel_spec fuel) IH) as [[n s2] Hb].
  - rewrite Hact1. lia.
  - rewrite Hb. eauto.
Qed.

(** With more fuel the answer is the same. *)
Lemma handle_failed_mono (disc1 disc2 : string -> Sys -> option Sys) :
  (forall c s s', disc1 c s = Some s' -> disc2 c s = Some s') ->
  forall failed s s',
    handle_failed disc1 failed s = Some s' -> handle_failed disc2 failed s = Some s'.
Proof.
  intros Hle. induction failed as [|f rest IH]; intros s s'; simpl; [auto|].
  destruct (disc1 f s) as [s1|] eqn:H1; [|discriminate].
  rewrite (Hle f s s1 H1). apply IH.
Qed.

Lemma broadcast_with_mono (disc1 disc2 : string -> Sys -> option Sys)
    (message : WebSocketMessage) (exclude_client : option string) (s : Sys)
    (out : nat * Sys) :
  (forall c s s', disc1 c s = Some s' -> disc2 c s = Some s') ->
  broadcast_with clock send_ok disc1 message exclude_client s = Some out ->
  broadcast_with clock send_ok disc2 message exclude_client s = Some out.
Proof.
  intros Hle. unfold broadcast_with. destruct (active s) as [|item items]; [auto|].
  destruct (fan_out clock send_ok message exclude_client (item :: items) O [] s)
    as [[sends failed] s1].
  destruct (handle_failed disc1 failed s1) as [s2|] eqn:H1; [|discriminate].
  now rewrite (handle_failed_mono disc1 disc2 Hle failed s1 s2 H1).
Qed.

Lemma disconnect_fuel_mono (fuel : nat) :
  forall (fuel' : nat) (client_id : string) (s s' : Sys),
    (fuel <= fuel')%nat ->
    disconnect_fuel clock send_ok fuel client_id s = Some s' ->
    disconnect_fuel clock send_ok fuel' client_id s = Some s'.
Proof.
  induction fuel as [|fuel IH]; intros fuel' client_id s s' Hle; simpl; [discriminate|].
  destruct fuel' as [|fuel']; [lia|]. simpl.
  destruct (remove_session clock client_id s) as [[] s1].
  unfold broadcast_user_count_with.
  destruct (broadcast_with clock send_ok (disconnect_fuel clock send_ok fuel) _ None s1)
    as [[n s2]|] eqn:Hb; [|discriminate].
  intros [= <-].
  rewrite (broadcast_with_mono _ (disconnect_fuel clock send_ok fuel') _ _ _ _
             (fun c t t' => IH fuel' c t t' ltac:(lia)) Hb).
  reflexivity.
Qed.

(** *** The operations as they are called *)

Lemma disconnect_total (client_id : string) (s : Sys) :
  is_Some (disconnect clock send_ok client_id s).
Proof.
  apply disconnect_fuel_total. unfold enough.
  pose proof (sublist_length _ _ (dict_del_sublist client_id (active s))). lia.
Qed.

Lemma answers_below_weaken (k k' : nat) (disc : string -> Sys -> option Sys) :
  (k' <= k)%nat -> answers_below k disc -> answers_below k' disc.
Proof. intros Hle Hans c s Hlen. apply Hans. lia. Qed.

Lemma broadcast_total (message : WebSocketMessage) (exclude_client : option string)
    (s : Sys) :
  is_Some (broadcast clock send_ok message exclude_client s).
Proof.
  apply (broadcast_with_total _ (enough s)).
  - apply disconnect_fuel_spec.
  - apply disconnect_fuel_total.
  - unfold enough. lia.
Qed.

Lemma broadcast_user_count_total (s : Sys) :
  is_Some (broadcast_user_count clock send_ok s).
Proof.
  unfold broadcast_user_count, broadcast_user_count_with.
  destruct (broadcast_total (user_count_message (active_connections_count (manager s)))
              None s) as [[n s1] Hb].
  unfold broadcast in Hb. rewrite Hb. eauto.
Qed.






(** *** Deregistering an identifier that is not registered *)

Lemma remove_session_unregistered (client_id : string) (s : Sys) :
  unregistered client_id s -> remove_session clock client_id s = (tt, s).
Proof.
  intros (Hk & Hi & Ha). unfold info, activity, active in *.
  unfold remove_session, bind, modify; simpl. rewrite Hi; simpl.
  destruct s as [[act inf brd actv] w]; simpl in *.
  unfold set_manager, set_activity, set_active; simpl.
  rewrite (dict_del_absent client_id act Hk), (delete_id actv client_id Ha).
  reflexivity.
Qed.

Lemma disconnect_fuel_S (fuel : nat) (client_id : string) (s : Sys) :
  disconnect_fuel clock send_ok (S fuel) client_id s =
    broadcast_user_count_with clock send_ok (disconnect_fuel clock send_ok fuel)
      (snd (remove_session clock client_id s)).
Proof. simpl. now destruct (remove_session clock client_id s) as [[] s1]. Qed.

Lemma disconnect_unregisters (client_id : string) (s s' : Sys) :
  disconnect clock send_ok client_id s = Some s' -> unregistered client_id s'.
Proof. apply disconnect_fuel_unregisters. Qed.

(** C9, amended.  In a state where the identifier is not registered, be it
    unknown or just deregistered, the removal step of [disconnect] changes
    nothing, the whole call is exactly one [broadcast_user_count], and the
    identifier is still not registered afterwards; the sessions themselves
    are only touched by that broadcast. *)
Theorem disconnect_unregistered_only_broadcasts (client_id : string) (s : Sys) :
  unregistered client_id s \/
    (exists s0, disconnect clock send_ok client_id s0 = Some s) ->
  remove_session clock client_id s = (tt, s) /\
  disconnect clock send_ok client_id s = broadcast_user_count clock send_ok s /\
  forall s', disconnect clock send_ok client_id s = Some s' -> unregistered client_id s'.
Proof.
  intros Hun.
  assert (Hun' : unregistered client_id s).
  { destruct Hun as [Hun|[s0 Hs0]]; [exact Hun | now apply (disconnect_unregisters _ s0)]. }
  clear Hun. splits.
  - now apply remove_session_unregistered.
  - unfold disconnect, broadcast_user_count, enough. rewrite disconnect_fuel_S.
    rewrite (remove_session_unregistered client_id s Hun'). cbn [snd].
    unfold broadcast_user_count_with.
    destruct (broadcast_with_total (disconnect_fuel clock send_ok (length (active s)))
                (length (active s))
                (user_count_message (active_connections_count (manager s))) None s
                (disconnect_fuel_spec _) (disconnect_fuel_total _) (le_n _))
      as [out Hout].
    rewrite Hout.
    rewrite (broadcast_with_mono _ (disconnect_fuel clock send_ok (S (length (active s))))
               _ _ _ _
               (fun c t t' => disconnect_fuel_mono _ (S (length (active s))) c t t'
                                (Nat.le_succ_diag_r _)) Hout).
    reflexivity.
  - intros s'. apply disconnect_unregisters.
Qed.

(** *** Connecting *)

Lemma _update_client_activity_info (client_id : string) (s : Sys) :
  same_sessions (info (snd (_update_client_activity clock client_id s))) (info s).
Proof.
  unfold _update_client_activity, bind, time_time, modify, info; simpl.
  destruct (_connection_info (manager s) !! client_id) as [ci|] eqn:Hinfo; simpl;
    intros c; [|reflexivity].
  destruct (decide (client_id = c)) as [<-|Hne].
  - rewrite lookup_insert_eq, Hinfo. reflexivity.
  - now rewrite lookup_insert_ne.
Qed.

(** When no send fails, the loop reaches everybody it does not skip. *)
Lemma fan_out_all_sent (message : WebSocketMessage) (exclude_client : option string)
    (items : list (string * WebSocket)) :
  (forall n w, send_ok n w = true) ->
  forall (n0 : nat) (f0 : list string) (s : Sys),
    let out := fan_out clock send_ok message exclude_client items n0 f0 s in
    snd (fst out) = f0 /\ same_sessions (info (snd out)) (info s).
Proof.
  intros Hok. induction items as [|[client_id websocket] rest IH]; intros n0 f0 s.
  - simpl. split; [reflexivity | intros c; reflexivity].
  - cbv zeta. rewrite fan_out_cons.
    destruct (excluded exclude_client client_id); [apply IH|].
    rewrite Hok.
    destruct (IH (S n0) f0
                (snd (_update_client_activity clock client_id
                        (delivered websocket message s)))) as [Hf Hi].
    split; [exact Hf|]. intros c. rewrite Hi.
    apply (_update_client_activity_info client_id (delivered websocket message s)).
Qed.

Lemma broadcast_user_count_all_sent (s s' : Sys) :
  (forall n w, send_ok n w = true) ->
  broadcast_user_count clock send_ok s = Some s' ->
  active s' = active s /\ same_sessions (info s') (info s) /\ board s' = board s.
Proof.
  intros Hok. unfold broadcast_user_count, broadcast_user_count_with, broadcast_with.
  destruct (active s) as [|item items] eqn:Hitems.
  - intros [= <-]. rewrite Hitems. splits; auto. intros c; reflexivity.
  - set (message := user_count_message _).
    destruct (fan_out_all_sent message None (item :: items) Hok O [] s) as [Hf Hi].
    destruct (fan_out_spec message None (item :: items) O [] s)
      as (rcp & nf & _ & _ & _ & _ & _ & _ & Hact & Hb & _).
    destruct (fan_out clock send_ok message None (item :: items) O [] s)
      as [[sends failed] s1].
    simpl in Hf, Hi, Hact, Hb. subst failed. simpl.
    intros [= <-]. rewrite Hact, Hitems. splits; auto.
Qed.

Lemma dict_set_get {A : Type} (key : string) (v : A) (d : list (string * A)) :
  dict_get key (dict_set key v d) = Some v.
Proof.
  induction d as [|[k w] d IH]; simpl.
  - now rewrite String.eqb_refl.
  - destruct (String.eqb k key) eqn:Hk; simpl; rewrite Hk; [reflexivity | exact IH].
Qed.

Lemma dict_set_keys {A : Type} (key : string) (v w : A) (d : list (string * A)) :
  dict_get key d = Some w -> keys (dict_set key v d) = keys d.
Proof.
  induction d as [|[k u] d IH]; simpl; [discriminate|].
  destruct (String.eqb k key) eqn:Hk; simpl; [reflexivity|].
  intros Hget. now rewrite IH.
Qed.

(** C2, amended.  Registering an identifier that is already live is not
    refused: when the transport accepts the handle and no send fails,
    [connect] returns normally, the identifier stays where it was in the
    registry but now maps to the new handle, and its metadata are those of
    the new connection (the connect time is the clock reading of this
    call, the address the one given now).  Nothing is added: the set of
    live identifiers is the same. *)
Theorem connect_replaces_live_session (websocket old : WebSocket) (client_id : string)
    (ip : option string) (s : Sys) :
  dict_get client_id (active s) = Some old ->
  accept_ok (steps (world s)) websocket = true ->
  (forall n w, send_ok n w = true) ->
  exists s' : Sys,
    connect clock accept_ok send_ok websocket client_id ip s = Some (Ok tt, s') /\
    dict_get client_id (active s') = Some websocket /\
    keys (active s') = keys (active s) /\
    touch 0 <$> (info s' !! client_id) =
      Some {| info_client_id := client_id;
              connected_at := clock (S (steps (world s)));
              last_activity := 0;
              ip_address := ip |}.
Proof.
  intros Hlive Hacc Hok. unfold connect, accept. rewrite Hacc.
  set (s1 := {| manager := manager s; world := tick (world s) |}).
  destruct (register_session clock websocket client_id ip s1) as [[] s2] eqn:Hreg.
  assert (Hs2 : active s2 = dict_set client_id websocket (active s) /\
                info s2 !! client_id =
                  Some {| info_client_id := client_id;
                          connected_at := clock (S (steps (world s)));
                          last_activity := clock (S (steps (world s)));
                          ip_address := ip |} /\
                board s2 = board s).
  { unfold register_session, bind, time_time, modify in Hreg. simpl in Hreg.
    injection Hreg as <-. unfold info; simpl. rewrite lookup_insert_eq. auto. }
  destruct Hs2 as (Hact2 & Hinfo2 & Hb2).
  assert (Hsnap : exists s3,
             match _board_state (manager s2) with
             | [] => (true, s2)
             | _ :: _ => _send_board_state send_ok websocket s2
             end = (true, s3) /\
             active s3 = active s2 /\ info s3 = info s2).
  { destruct (_board_state (manager s2)); [eauto|].
    unfold _send_board_state, send_text. rewrite Hok. eexists. split; [reflexivity|]. auto. }
  destruct Hsnap as (s3 & -> & Hact3 & Hinfo3).
  destruct (broadcast_user_count_total s3) as [s4 Hs4]. rewrite Hs4.
  destruct (broadcast_user_count_all_sent s3 s4 Hok Hs4) as (Hact4 & Hinfo4 & _).
  exists s4. splits.
  - reflexivity.
  - rewrite Hact4, Hact3, Hact2. apply dict_set_get.
  - rewrite Hact4, Hact3, Hact2. now apply (dict_set_keys _ _ old).
  - rewrite Hinfo4, Hinfo3, Hinfo2. reflexivity.
Qed.

(** C4, amended.  When [connect] returns normally, what it has put on the
    wire is, in this order: the [board_state] message for the new handle,
    carrying exactly the log as it was when the call was made, if that log
    is not empty, and nothing at all if it is empty; then user-count
    notices only. *)
Theorem connect_sends_snapshot_first (websocket : WebSocket) (client_id : string)
    (ip : option string) (s s' : Sys) :
  connect clock accept_ok send_ok websocket client_id ip s = Some (Ok tt, s') ->
  exists notices : list (WebSocket * WebSocketMessage),
    Forall is_user_count notices /\
    sent s' =
      sent s ++
      match board s with
      | [] => []
      | log =>
          [(websocket,
            {| type := BOARD_STATE; client_id := "server";
               payload := Some (PBoardState {| actions := map JObj log |}) |})]
      end ++ notices.
Proof.
  unfold connect, accept.
  destruct (accept_ok (steps (world s)) websocket); [|discriminate].
  set (s1 := {| manager := manager s; world := tick (world s) |}).
  destruct (register_session clock websocket client_id ip s1) as [[] s2] eqn:Hreg.
  assert (Hs2 : board s2 = board s /\ sent s2 = sent s).
  { unfold register_session, bind, time_time, modify in Hreg. simpl in Hreg.
    injection Hreg as <-. auto. }
  destruct Hs2 as (Hb2 & Hsent2).
  fold (board s2). rewrite Hb2.
  destruct (board s) as [|a log] eqn:Hlog.
  - destruct (broadcast_user_count clock send_ok s2) as [s4|] eqn:Hs4; [|discriminate].
    intros [= <-].
    unfold broadcast_user_count, broadcast_user_count_with in Hs4.
    destruct (broadcast_with _ _ _ _ _ s2) as [[n s5]|] eqn:Hb; [|discriminate].
    injection Hs4 as ->.
    destruct (broadcast_with_spec _ _ _ _ _ _ (disconnect_fuel_spec _) Hb)
      as (rcp & evs & _ & _ & _ & Hsent & Hev & _).
    eexists. split; [|rewrite Hsent, Hsent2; simpl; reflexivity].
    apply Forall_app. split; [|exact Hev].
    unfold deliveries. apply Forall_fmap, Forall_true. intros p. now eexists.
  - unfold _send_board_state, send_text.
    destruct (send_ok (steps (world s2)) websocket); [|discriminate].
    set (s3 := {| manager := manager s2; world := _ |}).
    destruct (broadcast_user_count clock send_ok s3) as [s4|] eqn:Hs4; [|discriminate].
    intros [= <-].
    unfold broadcast_user_count, broadcast_user_count_with in Hs4.
    destruct (broadcast_with _ _ _ _ _ s3) as [[n s5]|] eqn:Hb; [|discriminate].
    injection Hs4 as ->.
    destruct (broadcast_with_spec _ _ _ _ _ _ (disconnect_fuel_spec _) Hb)
      as (rcp & evs & _ & _ & _ & Hsent & Hev & _).
    eexists. split; [|rewrite Hsent; unfold sent at 1, s3; simpl;
                      fold (sent s2); fold (board s2); rewrite Hsent2, Hb2;
                      rewrite <- !app_assoc; reflexivity].
    apply Forall_app. split; [|exact Hev].
    unfold deliveries. apply Forall_fmap, Forall_true. intros p. now eexists.
Qed.

End Props.



(** *** Concrete runs *)

(** C9, as stated, fails: deregistering an identifier nobody holds still
    broadcasts the user count, and each session reached by it gets a new
    last-activity stamp. *)
Lemma disconnect_unknown_changes_activity :
  let s := three_sessions [] in
  dict_mem "ghost" (active s) = false /\
  info s !! "ghost" = None /\
  activity s !! "ghost" = None /\
  exists s' : Sys,
    disconnect at_five always "ghost" s = Some s' /\
    activity s !! "a" = Some 0 /\
    activity s' !! "a" = Some 5.
Proof.
  simpl. splits; try reflexivity.
  eexists. splits; [vm_compute; reflexivity | reflexivity | reflexivity].
Qed.

Lemma disconnect_unregistered_only_broadcasts_witness :
  let s := three_sessions [] in
  remove_session at_five "ghost" s = (tt, s) /\
  disconnect at_five always "ghost" s = broadcast_user_count at_five always s /\
  forall s', disconnect at_five always "ghost" s = Some s' -> unregistered "ghost" s'.
Proof.
  apply (disconnect_unregistered_only_broadcasts at_five always "ghost" (three_sessions [])).
  left. unfold unregistered. splits.
  - simpl. intros Hin. repeat (apply elem_of_cons in Hin as [Hin|Hin]; [discriminate|]).
    inversion Hin.
  - reflexivity.
  - reflexivity.
Defined.

(** C2, as stated, fails: a second [connect] under a live identifier returns
    normally and the registry then holds the new handle. *)
Lemma connect_duplicate_is_accepted :
  let s := three_sessions [] in
  dict_get "a" (active s) = Some 1%nat /\
  exists s' : Sys,
    connect at_five always always 9%nat "a" None s = Some (Ok tt, s') /\
    dict_get "a" (active s') = Some 9%nat.
Proof.
  simpl. split; [reflexivity|].
  eexists. split; [vm_compute; reflexivity | reflexivity].
Qed.

Lemma connect_replaces_live_session_witness :
  let s := three_sessions [] in
  exists s' : Sys,
    connect at_five always always 9%nat "a" (Some "203.0.113.7") s = Some (Ok tt, s') /\
    dict_get "a" (active s') = Some 9%nat /\
    keys (active s') = keys (active s) /\
    touch 0 <$> (info s' !! "a") =
      Some {| info_client_id := "a"; connected_at := at_five (S (steps (world s)));
              last_activity := 0; ip_address := Some "203.0.113.7" |}.
Proof.
  apply (connect_replaces_live_session at_five always always 9%nat 1%nat "a"
           (Some "203.0.113.7") (three_sessions [])).
  - reflexivity.
  - reflexivity.
  - reflexivity.
Defined.

(** C4, as stated, fails when the log is empty: no [board_state] message is
    sent at all and the first frame the new handle gets is the user count. *)
Lemma connect_empty_log_sends_no_snapshot :
  let s := three_sessions [] in
  exists s' : Sys,
    connect at_five always always 4%nat "d" None s = Some (Ok tt, s') /\
    board s = [] /\
    sent s' = deliveries (user_count_message 4)
                [("a", 1%nat); ("b", 2%nat); ("c", 3%nat); ("d", 4%nat)].
Proof.
  simpl. eexists. splits; [vm_compute; reflexivity | reflexivity | reflexivity].
Qed.

(** The scenario of the specification: client D connects while the log
    holds three actions. *)
Lemma connect_sends_snapshot_first_witness :
  let log := [stroke "a"; stroke "b"; stroke "a"] in
  let s := three_sessions log in
  let s' := after (connect at_five always always 4%nat "d" None s) s in
  exists notices : list (WebSocket * WebSocketMessage),
    Forall is_user_count notices /\
    sent s' =
      sent s ++
      [(4%nat,
        {| type := BOARD_STATE; client_id := "server";
           payload := Some (PBoardState {| actions := map JObj log |}) |})] ++ notices.
Proof.
  apply (connect_sends_snapshot_first at_five always always 4%nat "d" None
           (three_sessions [stroke "a"; stroke "b"; stroke "a"])).
  vm_compute. reflexivity.
Defined.

End ManagerProps.

(** ** Validation of inbound frames *)
Module WebsocketProps.
Import ManagerProps.

Lemma MessageType_of_value_inv (text : string) (t : MessageType) :
  MessageType_of_value text = Ok t -> text = MessageType_value t.
Proof.
  unfold MessageType_of_value.
  destruct (find _ MessageType_members) as [t'|] eqn:Hfind; [|discriminate].
  intros [= <-]. apply find_some in Hfind as [_ Heq].
  symmetry. now apply String.eqb_eq.
Qed.

Lemma MessageType_of_value_value (t : MessageType) :
  MessageType_of_value (MessageType_value t) = Ok t.
Proof. now destruct t. Qed.

(** Every JSON object is a valid [payload]: the last member of the union
    takes what the models before it turn down. *)
Lemma validate_payload_object (cfg : Settings) (p : list (string * json)) :
  exists pl : Payload, validate_payload cfg (JObj p) = Ok pl.
Proof.
  unfold validate_payload, or_else.
  repeat match goal with
         | |- context [match vmap ?f ?r with _ => _ end] => destruct (vmap f r)
         end; eauto.
Qed.

Lemma traverse_length {A B : Type} (f : A -> validated B) (l : list A) (l' : list B) :
  traverse f l = Ok l' -> length l' = length l.
Proof.
  revert l'. induction l as [|a l IH]; intros l'; simpl.
  - now intros [= <-].
  - destruct (f a) as [b|e]; simpl; [|discriminate].
    destruct (traverse f l) as [bs|e]; simpl; [|discriminate].
    intros [= <-]. simpl. now rewrite (IH bs).
Qed.

(** The draw model does turn down a stroke with too many points. *)
Lemma validate_DrawPayload_too_many_points (cfg : Settings) (p : list (string * json))
    (items : list json) :
  dict_get "points" p = Some (JArr items) ->
  max_stroke_points cfg < Z.of_nat (length items) ->
  is_ok (validate_DrawPayload cfg (JObj p)) = false.
Proof.
  intros Hpts Hlen. unfold validate_DrawPayload.
  destruct (required "tool" p _) as [t|e]; simpl; [|reflexivity].
  destruct (required "color" p _) as [c|e]; simpl; [|reflexivity].
  destruct (required "size" p _) as [sz|e]; simpl; [|reflexivity].
  unfold required. rewrite Hpts. unfold validate_points.
  destruct (traverse validate_Point items) as [pts|e] eqn:Htr; simpl; [|reflexivity].
  apply traverse_length in Htr.
  destruct (length pts <? 1)%nat; simpl; [reflexivity|].
  unfold validate_points_limit. rewrite Htr.
  destruct (Z.gtb_spec (Z.of_nat (length items)) (max_stroke_points cfg)); [reflexivity | lia].
Qed.

(** A message is built from any object with a known [type], a string
    [clientId] and an object as [payload]. *)
Lemma new_WebSocketMessage_object (cfg : Settings) (data p : list (string * json))
    (t : MessageType) (cid : string) :
  dict_get "type" data = Some (JStr (MessageType_value t)) ->
  dict_get "clientId" data = Some (JStr cid) ->
  dict_get "payload" data = Some (JObj p) ->
  exists pl : Payload,
    new_WebSocketMessage cfg data = Ok {| type := t; client_id := cid; payload := Some pl |}.
Proof.
  intros Ht Hc Hp. unfold new_WebSocketMessage, required, optional.
  rewrite Ht, Hc, Hp. simpl. rewrite MessageType_of_value_value. simpl.
  destruct (validate_payload_object cfg p) as [pl Hpl]. rewrite Hpl. simpl. eauto.
Qed.

Lemma new_WebSocketMessage_type (cfg : Settings) (data : list (string * json))
    (message : WebSocketMessage) :
  new_WebSocketMessage cfg data = Ok message ->
  dict_get "type" data = Some (JStr (MessageType_value (type message))).
Proof.
  unfold new_WebSocketMessage, required.
  destruct (dict_get "type" data) as [[| | | |text| |]|]; simpl; try discriminate.
  destruct (MessageType_of_value text) as [t|e] eqn:Ht; simpl; [|discriminate].
  apply MessageType_of_value_inv in Ht. subst text.
  match goal with |- context [vbind ?r _] => destruct r as [cid|e] end;
    simpl; [|discriminate].
  match goal with |- context [vbind ?r _] => destruct r as [pl|e] end;
    simpl; [|discriminate].
  now intros [= <-].
Qed.

Section Frames.
Variable cfg : Settings.
Variable json_loads : string -> option json.


(** C1, on the code.  A draw frame whose [points] list is longer than
    [max_stroke_points] is turned down by the draw model, and yet the
    frame as a whole is accepted: [_process_incoming_message] returns a
    message and the raw object is appended to the board log. *)
Theorem oversized_draw_is_stored (raw_data client_id : string)
    (data p : list (string * json)) (items : list json) (s : Sys) :
  safe_json_loads json_loads raw_data = JObj data ->
  dict_get "type" data = Some (JStr "draw") ->
  dict_get "clientId" data = Some (JStr client_id) ->
  dict_get "payload" data = Some (JObj p) ->
  dict_get "points" p = Some (JArr items) ->
  max_stroke_points cfg < Z.of_nat (length items) ->
  let out := _process_incoming_message cfg json_loads raw_data client_id s in
  is_ok (validate_DrawPayload cfg (JObj p)) = false /\
  is_ok (fst out) = true /\
  board (snd out) = board s ++ [data].
Proof.
  intros Hraw Ht Hc Hp Hpts Hlen. cbv zeta. split.
  - now apply (validate_DrawPayload_too_many_points cfg p items).
  - unfold _process_incoming_message. rewrite Hraw.
    unfold dict_mem. rewrite Ht, Hc. simpl.
    unfold eq_str. rewrite String.eqb_refl. simpl.
    destruct (new_WebSocketMessage_object cfg data p DRAW client_id Ht Hc Hp) as [pl Hnew].
    rewrite Hnew. simpl.
    unfold board, add_to_board_state. rewrite Ht. simpl. auto.
Qed.

End Frames.

Lemma oversized_draw_is_stored_witness :
  let data := stroke_of "a" 1001 in
  let s := three_sessions [] in
  let out := _process_incoming_message settings (reads_as (JObj data)) "frame" "a" s in
  is_ok (validate_DrawPayload settings (default JNull (dict_get "payload" data))) = false /\
  is_ok (fst out) = true /\
  board (snd out) = board s ++ [data].
Proof.
  apply (oversized_draw_is_stored settings (reads_as (JObj (stroke_of "a" 1001))) "frame" "a"
           (stroke_of "a" 1001) _ (repeat (JObj [("x", JInt 1); ("y", JInt 2)]) 1001)
           (three_sessions [])).
  - reflexivity.
  - reflexivity.
  - reflexivity.
  - reflexivity.
  - reflexivity.
  - vm_compute. reflexivity.
Defined.


(** The scenario of the specification: client A sends a stroke of three
    points; B and C each get exactly one [draw] frame, A gets none, and the
    board log then holds one action. *)
Example on_receive_text_draw :
  let data := stroke_of "a" 3 in
  exists (s' : Sys) (message : WebSocketMessage),
    on_receive_text settings (reads_as (JObj data)) at_five always 1%nat "a" "frame"
      (three_sessions []) = Some s' /\
    sent s' = deliveries message [("b", 2%nat); ("c", 3%nat)] /\
    type message = DRAW /\
    board s' = [data].
Proof.
  simpl. eexists _, _. splits; [vm_compute; reflexivity | reflexivity..].
Qed.

End WebsocketProps.

(** ** More on admission control *)
Module RateLimiterMore.
Import RateLimiterProps ManagerProps.

Lemma prune_app (cutoff : Z) (l1 l2 : list Z) :
  prune cutoff (l1 ++ l2) = prune cutoff l1 ++ prune cutoff l2.
Proof. unfold prune. apply List.filter_app. Qed.

Lemma prune_prune (c1 c2 : Z) (l : list Z) :
  c1 <= c2 -> prune c2 (prune c1 l) = prune c2 l.
Proof.
  intros Hle. unfold prune. induction l as [|t l IH]; simpl; [reflexivity|].
  destruct (Z.gtb_spec t c1); simpl.
  - now rewrite IH.
  - destruct (Z.gtb_spec t c2); [lia | exact IH].
Qed.

Lemma prune_length (cutoff : Z) (l : list Z) : (length (prune cutoff l) <= length l)%nat.
Proof. unfold prune. apply List.filter_length_le. Qed.

Lemma prune_Forall (cutoff : Z) (l : list Z) : Forall (fun t => cutoff < t) (prune cutoff l).
Proof.
  unfold prune. apply Forall_forall. intros t Ht. apply list_elem_of_In in Ht.
  apply List.filter_In in Ht as [_ Ht]. lia.
Qed.

Lemma history_other (identifier other : string) (r : RateLimiter) (l : list Z) :
  identifier <> other ->
  history other (set_requests r (<[identifier := l]> (requests r))) = history other r.
Proof. intros Hne. unfold history; simpl. now rewrite lookup_insert_ne. Qed.

(** A call of [is_allowed] for one identifier leaves the history of
    every other identifier, and the two limits, as they were. *)
Theorem is_allowed_other_identifier (t : Z) (identifier other : string) (r : RateLimiter) :
  identifier <> other ->
  let r' := snd (is_allowed t identifier r) in
  requests r' !! other = requests r !! other /\
  max_requests r' = max_requests r /\
  window_seconds r' = window_seconds r.
Proof.
  intros Hne. rewrite is_allowed_eq. cbv zeta.
  destruct (_ <? _); simpl; rewrite lookup_insert_ne by exact Hne; auto.
Qed.

Lemma is_allowed_other_identifier_witness :
  let r' := snd (is_allowed 1000 "a" (new_RateLimiter 10 60)) in
  requests r' !! "b" = requests (new_RateLimiter 10 60) !! "b" /\
  max_requests r' = max_requests (new_RateLimiter 10 60) /\
  window_seconds r' = window_seconds (new_RateLimiter 10 60).
Proof.
  apply (is_allowed_other_identifier 1000 "a" "b" (new_RateLimiter 10 60)). discriminate.
Defined.

Lemma is_allowed_bounded (t : Z) (identifier : string) (r : RateLimiter) :
  bounded r -> bounded (snd (is_allowed t identifier r)).
Proof.
  intros Hb other. rewrite is_allowed_eq. cbv zeta.
  pose proof (prune_length (t - window_seconds r) (history identifier r)) as Hlen.
  specialize (Hb identifier) as Hid.
  destruct (Z.ltb_spec (Z.of_nat (length (prune (t - window_seconds r) (history identifier r))))
              (max_requests r)) as [Hlt|Hge]; simpl.
  - destruct (decide (identifier = other)) as [<-|Hne].
    + rewrite history_set, length_app. simpl. lia.
    + rewrite history_other by exact Hne. apply Hb.
  - destruct (decide (identifier = other)) as [<-|Hne].
    + rewrite history_set. lia.
    + rewrite history_other by exact Hne. apply Hb.
Qed.

Lemma replay_bounded (calls : list (Z * string)) :
  forall r, bounded r ->
    bounded (snd (replay calls r)) /\
    max_requests (snd (replay calls r)) = max_requests r /\
    window_seconds (snd (replay calls r)) = window_seconds r.
Proof.
  induction calls as [|[t i] calls IH]; intros r Hb; simpl; [auto|].
  pose proof (is_allowed_bounded t i r Hb) as Hb1.
  assert (Hlim : max_requests (snd (is_allowed t i r)) = max_requests r /\
                 window_seconds (snd (is_allowed t i r)) = window_seconds r).
  { rewrite is_allowed_eq. cbv zeta. destruct (_ <? _); auto. }
  destruct (is_allowed t i r) as [b r1]. simpl in *.
  destruct (IH r1 Hb1) as (Hb2 & Hm & Hw).
  destruct (replay calls r1) as [bs r2]. simpl in *.
  destruct Hlim as [Hm1 Hw1]. splits; [exact Hb2 | congruence | congruence].
Qed.

(** X2.  Starting from a new limiter whose limit is not negative, whatever
    calls are made, for whatever identifiers and at whatever clock
    readings, no identifier ever has more than [max_requests] timestamps
    stored. *)
Theorem replay_history_bounded (limit window : Z) (calls : list (Z * string))
    (identifier : string) :
  0 <= limit ->
  Z.of_nat (length (history identifier (snd (replay calls (new_RateLimiter limit window)))))
    <= limit.
Proof.
  intros Hlimit.
  destruct (replay_bounded calls (new_RateLimiter limit window)) as (Hb & Hm & _).
  - intros i. unfold history; simpl. rewrite lookup_empty. simpl. lia.
  - specialize (Hb identifier). rewrite Hm in Hb. exact Hb.
Qed.

Lemma replay_history_bounded_witness :
  Z.of_nat (length (history "a"
     (snd (replay [(1, "a"); (2, "b"); (3, "a"); (4, "a")] (new_RateLimiter 2 60))))) <= 2.
Proof.
  apply (replay_history_bounded 2 60 [(1, "a"); (2, "b"); (3, "a"); (4, "a")] "a"). lia.
Defined.

(** With a clock that never goes back, the stored history of an identifier
    is what is left of its admitted calls after pruning at some cutoff not
    later than the window of the last call. *)
Lemma replay_history_admitted (identifier : string) (calls : list (Z * string)) :
  forall (r : RateLimiter) (adm : list Z) (c t0 : Z),
    0 < window_seconds r ->
    c <= t0 - window_seconds r ->
    history identifier r = prune c adm ->
    nondecreasing_from t0 calls ->
    exists c' : Z,
      c' <= last_time t0 calls - window_seconds r /\
      history identifier (snd (replay calls r)) =
        prune c' (adm ++ admitted identifier calls (fst (replay calls r))).
Proof.
  induction calls as [|[t i] calls IH]; intros r adm c t0 Hw Hc Hh Hmono; simpl.
  - exists c. rewrite app_nil_r. auto.
  - destruct Hmono as [Ht Hmono].
    pose proof (is_allowed_eq t i r) as Heq. cbv zeta in Heq.
    destruct (is_allowed t i r) as [b r1].
    assert (Hw1 : window_seconds r1 = window_seconds r).
    { destruct (_ <? _); injection Heq as _ ->; reflexivity. }
    destruct (String.eqb_spec i identifier) as [->|Hne].
    + assert (Hkept : prune (t - window_seconds r) (history identifier r) =
                      prune (t - window_seconds r) adm).
      { rewrite Hh. apply prune_prune. lia. }
      rewrite Hkept in Heq.
      destruct (_ <? _); injection Heq as -> ->.
      * destruct (IH (set_requests r
                        (<[identifier := prune (t - window_seconds r) adm ++ [t]]> (requests r)))
                     (adm ++ [t]) (t - window_seconds r) t) as (c' & Hc' & Hh').
        -- exact Hw.
        -- simpl. lia.
        -- rewrite history_set, prune_app. f_equal.
           unfold prune. simpl. destruct (Z.gtb_spec t (t - window_seconds r)); [reflexivity|lia].
        -- exact Hmono.
        -- simpl in Hc'. destruct (replay calls _) as [bs r2]. simpl in *.
           exists c'. split; [exact Hc'|]. rewrite Hh'. now rewrite <- app_assoc.
      * destruct (IH (set_requests r
                        (<[identifier := prune (t - window_seconds r) adm]> (requests r)))
                     adm (t - window_seconds r) t) as (c' & Hc' & Hh').
        -- exact Hw.
        -- simpl. lia.
        -- now rewrite history_set.
        -- exact Hmono.
        -- simpl in Hc'. destruct (replay calls _) as [bs r2]. simpl in *.
           exists c'. split; [exact Hc'|]. exact Hh'.
    + destruct (IH r1 adm c t) as (c' & Hc' & Hh').
      * now rewrite Hw1.
      * rewrite Hw1. lia.
      * rewrite <- Hh. destruct (_ <? _); injection Heq as _ ->; now apply history_other.
      * exact Hmono.
      * rewrite Hw1 in Hc'. destruct (replay calls r1) as [bs r2]. simpl in *.
        exists c'. split; [exact Hc'|]. rewrite Bool.andb_false_r. exact Hh'.
Qed.

(** X3.  The sliding window does limit the rate: with a positive window, a
    limit that is not negative and a clock that never goes back, after any
    series of calls on a new limiter the admitted calls of an identifier
    that lie inside the window ending at the last call are at most
    [max_requests]. *)
Theorem replay_admits_at_most_limit (limit window t0 : Z) (calls : list (Z * string))
    (identifier : string) :
  0 < window -> 0 <= limit ->
  nondecreasing_from t0 calls ->
  let answers := fst (replay calls (new_RateLimiter limit window)) in
  Z.of_nat (length (prune (last_time t0 calls - window) (admitted identifier calls answers)))
    <= limit.
Proof.
  intros Hw Hlimit Hmono answers.
  destruct (replay_history_admitted identifier calls (new_RateLimiter limit window)
              [] (t0 - window) t0) as (c' & Hc' & Hh); simpl; auto; try lia.
  assert (Hb : Z.of_nat (length (history identifier
                  (snd (replay calls (new_RateLimiter limit window))))) <= limit).
  { destruct (replay_bounded calls (new_RateLimiter limit window)) as (Hb & Hm & _).
    - intros i. unfold history; simpl. rewrite lookup_empty. simpl. lia.
    - specialize (Hb identifier). now rewrite Hm in Hb. }
  simpl in Hh. fold answers in Hh.
  rewrite <- (prune_prune c' (last_time t0 calls - window)) by exact Hc'.
  rewrite <- Hh.
  pose proof (prune_length (last_time t0 calls - window)
                (history identifier (snd (replay calls (new_RateLimiter limit window))))).
  lia.
Qed.

Lemma replay_admits_at_most_limit_witness :
  let calls := [(1, "a"); (2, "a"); (3, "a"); (70, "a")] in
  let answers := fst (replay calls (new_RateLimiter 2 60)) in
  Z.of_nat (length (prune (last_time 0 calls - 60) (admitted "a" calls answers))) <= 2.
Proof.
  apply (replay_admits_at_most_limit 2 60 0 [(1, "a"); (2, "a"); (3, "a"); (70, "a")] "a").
  - lia.
  - lia.
  - simpl. lia.
Defined.

(** What [cleanup_old_entries] leaves of one history. *)
Lemma cleanup_old_entries_history (t : Z) (identifier : string) (r : RateLimiter) :
  history identifier (cleanup_old_entries t r) =
    prune (t - window_seconds r * 2) (history identifier r).
Proof.
  unfold cleanup_old_entries, history. simpl. rewrite lookup_omap.
  destruct (requests r !! identifier) as [l|]; simpl; [|reflexivity].
  now destruct (prune (t - window_seconds r * 2) l).
Qed.

(** X4.  After [cleanup_old_entries] every identifier still listed has a
    history that is not empty, holds only timestamps newer than twice the
    window, and is the pruned history it had before. *)
Theorem cleanup_old_entries_keeps_recent (t : Z) (identifier : string) (r : RateLimiter)
    (kept : list Z) :
  requests (cleanup_old_entries t r) !! identifier = Some kept ->
  kept <> [] /\
  Forall (fun stamp => t - window_seconds r * 2 < stamp) kept /\
  exists old, requests r !! identifier = Some old /\
              kept = prune (t - window_seconds r * 2) old.
Proof.
  unfold cleanup_old_entries. simpl. rewrite lookup_omap.
  destruct (requests r !! identifier) as [old|]; simpl; [|discriminate].
  destruct (prune (t - window_seconds r * 2) old) as [|stamp rest] eqn:Hp; [discriminate|].
  intros [= <-]. splits; [discriminate | rewrite <- Hp; apply prune_Forall | eauto].
Qed.

Lemma cleanup_old_entries_keeps_recent_witness :
  let r := set_requests (new_RateLimiter 10 60) (<["a" := [100; 900]]> (<["b" := [100]]> ∅)) in
  [900] <> [] /\
  Forall (fun stamp => 1000 - window_seconds r * 2 < stamp) [900] /\
  exists old, requests r !! "a" = Some old /\
              [900] = prune (1000 - window_seconds r * 2) old.
Proof.
  apply (cleanup_old_entries_keeps_recent 1000 "a"
           (set_requests (new_RateLimiter 10 60) (<["a" := [100; 900]]> (<["b" := [100]]> ∅)))).
  vm_compute. reflexivity.
Defined.

(** X5.  The sweep is invisible to admission: with a window that is not
    negative, a call of [is_allowed] made at the time of the sweep or later
    gets the same answer, and leaves the same history for its identifier,
    whether [cleanup_old_entries] has run or not. *)
Theorem cleanup_old_entries_transparent (t later : Z) (identifier : string) (r : RateLimiter) :
  0 <= window_seconds r -> t <= later ->
  fst (is_allowed later identifier (cleanup_old_entries t r)) =
    fst (is_allowed later identifier r) /\
  history identifier (snd (is_allowed later identifier (cleanup_old_entries t r))) =
    history identifier (snd (is_allowed later identifier r)).
Proof.
  intros Hw Hle. rewrite !is_allowed_eq. cbv zeta.
  rewrite cleanup_old_entries_history.
  change (window_seconds (cleanup_old_entries t r)) with (window_seconds r).
  change (max_requests (cleanup_old_entries t r)) with (max_requests r).
  rewrite prune_prune by lia.
  destruct (_ <? _); simpl; now rewrite !history_set.
Qed.

Lemma cleanup_old_entries_transparent_witness :
  let r := set_requests (new_RateLimiter 1 60) (<["a" := [100; 990]]> ∅) in
  fst (is_allowed 1000 "a" (cleanup_old_entries 1000 r)) = fst (is_allowed 1000 "a" r) /\
  history "a" (snd (is_allowed 1000 "a" (cleanup_old_entries 1000 r))) =
    history "a" (snd (is_allowed 1000 "a" r)).
Proof.
  apply (cleanup_old_entries_transparent 1000 1000 "a"
           (set_requests (new_RateLimiter 1 60) (<["a" := [100; 990]]> ∅))).
  - simpl. lia.
  - lia.
Defined.

End RateLimiterMore.

(** ** The string helpers *)
Module TextProps.
Import ManagerProps.

Lemma length_append (s1 s2 : string) :
  String.length (String.append s1 s2) = (String.length s1 + String.length s2)%nat.
Proof. induction s1 as [|c s1 IH]; simpl; [reflexivity | now rewrite IH]. Qed.

Lemma substring_whole (s : string) : substring 0 (String.length s) s = s.
Proof. induction s as [|c s IH]; simpl; [reflexivity | now rewrite IH]. Qed.

Lemma append_empty_r (s : string) : String.append s "" = s.
Proof.
  induction s as [|c s IH]; [reflexivity|].
  change (String c (String.append s "") = String c s). now rewrite IH.
Qed.

(** A slice of a string, put back with what is left of it. *)
Lemma substring_split (n : nat) (s : string) :
  (n <= String.length s)%nat ->
  s = String.append (substring 0 n s) (substring n (String.length s - n) s).
Proof.
  revert n. induction s as [|c s IH]; intros [|n] Hn; try (simpl in Hn; lia).
  - reflexivity.
  - change (String c s = String c (substring 0 (String.length s) s)).
    now rewrite substring_whole.
  - change (String c s =
            String c (String.append (substring 0 n s) (substring n (String.length s - n) s))).
    f_equal. apply IH. simpl in Hn. lia.
Qed.

Lemma substring_length (n m : nat) (s : string) :
  (n + m <= String.length s)%nat -> String.length (substring n m s) = m.
Proof.
  revert n m. induction s as [|c s IH]; intros [|n] [|m] Hlen; simpl in *; try lia;
    try reflexivity.
  - f_equal. apply IH. lia.
  - apply IH. lia.
  - apply IH. simpl. lia.
Qed.

Lemma repeat_nat_length (m : string) (n : nat) :
  String.length (repeat_nat m n) = (n * String.length m)%nat.
Proof. induction n as [|n IH]; simpl; [reflexivity|]. now rewrite length_append, IH. Qed.

Lemma slice_to_split (k : Z) (s : string) :
  exists rest : string,
    s = String.append (slice_to k s) rest /\
    String.length (slice_to k s) = slice_index k (String.length s).
Proof.
  unfold slice_to.
  assert (Hk : (slice_index k (String.length s) <= String.length s)%nat).
  { unfold slice_index. destruct (Z.ltb_spec k 0); lia. }
  exists (substring (slice_index k (String.length s))
            (String.length s - slice_index k (String.length s)) s).
  split; [now apply substring_split|]. apply substring_length. lia.
Qed.

(** X6.  When the suffix fits into [max_length], [truncate_string] keeps
    its promise: the result is never longer than [max_length]; a text that
    fits is returned as it is; a longer one is cut to exactly [max_length]
    characters, a beginning of the text followed by the suffix. *)
Theorem truncate_string_fits (text suffix : string) (max_length : Z) :
  Z.of_nat (String.length suffix) <= max_length ->
  let out := truncate_string text max_length suffix in
  Z.of_nat (String.length out) <= max_length /\
  (Z.of_nat (String.length text) <= max_length -> out = text) /\
  (max_length < Z.of_nat (String.length text) ->
     Z.of_nat (String.length out) = max_length /\
     exists kept rest : string,
       text = String.append kept rest /\ out = String.append kept suffix).
Proof.
  intros Hfit. cbv zeta. unfold truncate_string.
  destruct (Z.leb_spec (Z.of_nat (String.length text)) max_length) as [Hshort|Hlong].
  - splits; [exact Hshort | reflexivity | lia].
  - destruct (slice_to_split (max_length - Z.of_nat (String.length suffix)) text)
      as (rest & Htext & Hlen).
    assert (Hout : Z.of_nat (String.length
                (String.append (slice_to (max_length - Z.of_nat (String.length suffix)) text)
                   suffix)) = max_length).
    { rewrite length_append, Hlen. unfold slice_index.
      destruct (Z.ltb_spec (max_length - Z.of_nat (String.length suffix)) 0); lia. }
    splits; [lia | lia |]. intros _. split; [exact Hout|]. eauto.
Qed.

Lemma truncate_string_fits_witness :
  let out := truncate_string "hello world" 8 "..." in
  Z.of_nat (String.length out) <= 8 /\
  (Z.of_nat (String.length "hello world") <= 8 -> out = "hello world") /\
  (8 < Z.of_nat (String.length "hello world") ->
     Z.of_nat (String.length out) = 8 /\
     exists kept rest : string,
       "hello world" = String.append kept rest /\ out = String.append kept "...").
Proof.
  apply (truncate_string_fits "hello world" "..." 8). simpl. lia.
Defined.

(** X7.  When the suffix is longer than [max_length], a text that has to be
    cut comes out longer than [max_length]: the negative slice bound counts
    from the end of the text. *)
Theorem truncate_string_overflows (text suffix : string) (max_length : Z) :
  max_length < Z.of_nat (String.length suffix) ->
  max_length < Z.of_nat (String.length text) ->
  max_length < Z.of_nat (String.length (truncate_string text max_length suffix)).
Proof.
  intros Hsuffix Hlong. unfold truncate_string.
  destruct (Z.leb_spec (Z.of_nat (String.length text)) max_length); [lia|].
  destruct (slice_to_split (max_length - Z.of_nat (String.length suffix)) text)
    as (rest & _ & Hlen).
  rewrite length_append, Hlen. unfold slice_index.
  destruct (Z.ltb_spec (max_length - Z.of_nat (String.length suffix)) 0); lia.
Qed.

Lemma truncate_string_overflows_witness :
  2 < Z.of_nat (String.length (truncate_string "hello world" 2 "...")).
Proof.
  apply (truncate_string_overflows "hello world" "..." 2); simpl; lia.
Defined.

Lemma slice_from_split (k : Z) (s : string) :
  exists hidden : string,
    s = String.append hidden (slice_from k s) /\
    String.length hidden = slice_index k (String.length s).
Proof.
  unfold slice_from. cbv zeta.
  assert (Hk : (slice_index k (String.length s) <= String.length s)%nat).
  { unfold slice_index. destruct (Z.ltb_spec k 0); lia. }
  exists (substring 0 (slice_index k (String.length s)) s).
  split; [now apply substring_split|]. apply substring_length. lia.
Qed.

(** X8.  With a positive [visible_chars], [mask_sensitive_data] shows the
    last [visible_chars] characters of the data and nothing else, and shows
    nothing at all of data that are not longer than that: the result is the
    mask, once for every hidden character, followed by the part shown. *)
Theorem mask_sensitive_data_hides (data mask_char : string) (visible_chars : Z) :
  0 < visible_chars ->
  exists hidden shown : string,
    data = String.append hidden shown /\
    mask_sensitive_data data mask_char visible_chars =
      String.append (repeat_nat mask_char (String.length hidden)) shown /\
    Z.of_nat (String.length shown) =
      if Z.of_nat (String.length data) <=? visible_chars then 0 else visible_chars.
Proof.
  intros Hv. unfold mask_sensitive_data.
  destruct (String.eqb_spec data "") as [->|Hne]; simpl.
  - exists "", "". splits; [reflexivity | reflexivity |].
    destruct (Z.leb_spec (Z.of_nat 0) visible_chars); [reflexivity | lia].
  - destruct (Z.leb_spec (Z.of_nat (String.length data)) visible_chars) as [Hle|Hgt].
    + exists data, "". splits; auto.
      * symmetry. apply append_empty_r.
      * unfold repeat_str. rewrite Nat2Z.id. symmetry. apply append_empty_r.
    + destruct (slice_from_split (- visible_chars) data) as (hidden & Hdata & Hlen).
      exists hidden, (slice_from (- visible_chars) data).
      assert (Hidx : slice_index (- visible_chars) (String.length data) =
                     Z.to_nat (Z.of_nat (String.length data) - visible_chars)).
      { unfold slice_index. destruct (Z.ltb_spec (- visible_chars) 0); lia. }
      splits.
      * exact Hdata.
      * unfold repeat_str. now rewrite Hlen, Hidx.
      * apply (f_equal String.length) in Hdata. rewrite length_append, Hlen, Hidx in Hdata.
        lia.
Qed.

Lemma mask_sensitive_data_hides_witness :
  exists hidden shown : string,
    "secret-key-1234" = String.append hidden shown /\
    mask_sensitive_data "secret-key-1234" "*" 4 =
      String.append (repeat_nat "*" (String.length hidden)) shown /\
    Z.of_nat (String.length shown) =
      if Z.of_nat (String.length "secret-key-1234") <=? 4 then 0 else 4.
Proof.
  apply (mask_sensitive_data_hides "secret-key-1234" "*" 4). lia.
Defined.

(** X9.  With [visible_chars = 0] nothing is hidden: for data that are not
    empty the result is the mask, once for every character, followed by the
    whole of the data, since the slice [data[-0:]] is all of it. *)
Theorem mask_sensitive_data_zero_visible (data mask_char : string) :
  data <> "" ->
  mask_sensitive_data data mask_char 0 =
    String.append (repeat_nat mask_char (String.length data)) data.
Proof.
  intros Hne. unfold mask_sensitive_data.
  destruct (String.eqb_spec data "") as [|_]; [contradiction|]. simpl.
  destruct (Z.leb_spec (Z.of_nat (String.length data)) 0) as [Hle|_].
  - destruct data; [contradiction | simpl in Hle; lia].
  - unfold repeat_str. rewrite Z.sub_0_r, Nat2Z.id. f_equal.
    unfold slice_from, slice_index. simpl. rewrite Nat.sub_0_r.
    apply substring_whole.
Qed.

Lemma mask_sensitive_data_zero_visible_witness :
  mask_sensitive_data "abcdef" "*" 0 =
    String.append (repeat_nat "*" (String.length "abcdef")) "abcdef".
Proof.
  apply (mask_sensitive_data_zero_visible "abcdef" "*"). discriminate.
Defined.

End TextProps.

(** ** More on the session registry and the dispatcher *)
Module ManagerMore.
Import ManagerProps.

Lemma dict_get_None {A : Type} (key : string) (d : list (string * A)) :
  dict_get key d = None <-> key ∉ keys d.
Proof.
  unfold keys. induction d as [|[k v] d IH]; simpl.
  - split; [intros _ Hin; inversion Hin | reflexivity].
  - rewrite not_elem_of_cons. destruct (String.eqb_spec k key) as [->|Hne].
    + split; [discriminate | intros [Hne _]; congruence].
    + rewrite IH. split; [intros Hk; split; [congruence | exact Hk] | intros [_ Hk]; exact Hk].
Qed.

Lemma dict_get_Some {A : Type} (key : string) (v : A) (d : list (string * A)) :
  dict_get key d = Some v -> (key, v) ∈ d.
Proof.
  induction d as [|[k w] d IH]; simpl; [discriminate|].
  destruct (String.eqb_spec k key) as [->|Hne].
  - intros [= ->]. now apply elem_of_cons; left.
  - intros Hget. apply elem_of_cons; right. now apply IH.
Qed.

Lemma keys_elem {A : Type} (key : string) (v : A) (d : list (string * A)) :
  (key, v) ∈ d -> key ∈ keys d.
Proof. intros Hin. unfold keys. apply list_elem_of_fmap. now exists (key, v). Qed.

Section More.
Variable clock : nat -> Z.
Variable accept_ok : nat -> WebSocket -> bool.
Variable send_ok : nat -> WebSocket -> bool.

Lemma disconnect_meets_spec : disconnect_spec (disconnect clock send_ok).
Proof. intros c s s' Hrun. exact (disconnect_fuel_spec clock send_ok (enough s) c s s' Hrun). Qed.

(** X10.  [disconnect] always returns, and when it has, the identifier is in
    none of the three registry dicts, [get_connection_info] knows it no
    more, the sessions left are sessions that were there before, in the
    same order, and the board log is what it was. *)
Theorem disconnect_removes_session (client_id : string) (s : Sys) :
  exists s' : Sys,
    disconnect clock send_ok client_id s = Some s' /\
    unregistered client_id s' /\
    get_connection_info client_id (manager s') = None /\
    active s' `sublist_of` dict_del client_id (active s) /\
    board s' = board s.
Proof.
  destruct (disconnect_total clock send_ok client_id s) as [s' Hrun].
  exists s'. pose proof (disconnect_unregisters clock send_ok client_id s s' Hrun) as Hun.
  destruct (disconnect_meets_spec client_id s s' Hrun) as (Hsub & Hb & _).
  splits; auto. now destruct Hun as (_ & Hi & _).
Qed.

(** When no send fails, the loop reaches every session it does not skip. *)
Lemma fan_out_no_failure (message : WebSocketMessage) (exclude_client : option string)
    (items : list (string * WebSocket)) :
  (forall n w, send_ok n w = true) ->
  forall (n0 : nat) (f0 : list string) (s : Sys),
    let out := fan_out clock send_ok message exclude_client items n0 f0 s in
    fst out = ((n0 + length (addressed exclude_client items))%nat, f0) /\
    sent (snd out) = sent s ++ deliveries message (addressed exclude_client items).
Proof.
  intros Hok. induction items as [|[client_id websocket] rest IH]; intros n0 f0 s.
  - simpl. rewrite Nat.add_0_r, app_nil_r. auto.
  - cbv zeta. rewrite fan_out_cons. unfold addressed. simpl.
    destruct (excluded exclude_client client_id); simpl; [apply IH|].
    rewrite Hok.
    destruct (IH (S n0) f0
                (snd (_update_client_activity clock client_id
                        (delivered websocket message s)))) as [Hf Hs].
    fold (addressed exclude_client rest). split.
    + rewrite Hf. f_equal. lia.
    + rewrite Hs.
      destruct (_update_client_activity_frame clock client_id (delivered websocket message s))
        as (_ & _ & -> & _).
      unfold sent, delivered; simpl. now rewrite <- app_assoc.
Qed.

Lemma broadcast_with_no_failure (disc : string -> Sys -> option Sys)
    (message : WebSocketMessage) (exclude_client : option string) (s : Sys) :
  (forall n w, send_ok n w = true) ->
  exists s' : Sys,
    broadcast_with clock send_ok disc message exclude_client s =
      Some (length (addressed exclude_client (active s)), s') /\
    sent s' = sent s ++ deliveries message (addressed exclude_client (active s)) /\
    active s' = active s.
Proof.
  intros Hok. unfold broadcast_with.
  destruct (active s) as [|item items] eqn:Hitems.
  - exists s. rewrite Hitems. simpl. rewrite app_nil_r. auto.
  - destruct (fan_out_no_failure message exclude_client (item :: items) Hok O [] s)
      as [Hout Hsent].
    destruct (fan_out_spec clock send_ok message exclude_client (item :: items) O [] s)
      as (rcp & nf & _ & _ & _ & _ & _ & _ & Hact & _).
    destruct (fan_out clock send_ok message exclude_client (item :: items) O [] s)
      as [[sends failed] s1].
    simpl in Hout, Hsent, Hact. injection Hout as -> ->. simpl.
    exists s1. rewrite Hact, Hitems. auto.
Qed.


(** X12.  [send_personal_message] always returns and never touches the
    board log.  For an identifier that is not connected it answers [False]
    and changes nothing at all.  Otherwise [True] means that the message,
    and nothing else, went out on the handle of that identifier and the
    registry lists the same sessions; [False] means that the message did
    not go out, the identifier has been deregistered, and only user-count
    notices have reached the wire. *)
Theorem send_personal_message_outcome (message : WebSocketMessage) (client_id : string)
    (s : Sys) :
  exists (ok : bool) (s' : Sys),
    send_personal_message clock send_ok message client_id s = Some (ok, s') /\
    board s' = board s /\
    match dict_get client_id (active s) with
    | None => ok = false /\ s' = s
    | Some websocket =>
        if ok
        then sent s' = sent s ++ [(websocket, message)] /\ active s' = active s
        else unregistered client_id s' /\
             active s' `sublist_of` dict_del client_id (active s) /\
             exists notices, sent s' = sent s ++ notices /\ Forall is_user_count notices
    end.
Proof.
  unfold send_personal_message.
  destruct (dict_get client_id (active s)) as [websocket|]; [|exists false, s; auto].
  unfold send_text. destruct (send_ok (steps (world s)) websocket).
  - fold (delivered websocket message s).
    destruct (_update_client_activity_frame clock client_id (delivered websocket message s))
      as (Hact & Hb & Hs & _).
    eexists true, _. splits; [reflexivity | exact Hb | | exact Hact].
    rewrite Hs. reflexivity.
  - fold (undelivered s).
    destruct (disconnect_total clock send_ok client_id (undelivered s)) as [s' Hrun].
    pose proof (disconnect_unregisters clock send_ok client_id _ s' Hrun) as Hun.
    destruct (disconnect_meets_spec client_id (undelivered s) s' Hrun)
      as (Hsub & Hb & Hev & _).
    rewrite Hrun. exists false, s'. splits; auto.
Qed.

(** *** The registry stays consistent *)

Lemma keys_dict_del {A : Type} (key c : string) (d : list (string * A)) :
  c ∈ keys (dict_del key d) <-> c <> key /\ c ∈ keys d.
Proof.
  unfold keys, dict_del. rewrite !list_elem_of_fmap. split.
  - intros (p & -> & Hp). apply list_elem_of_filter in Hp as [Hne Hp]. split; [exact Hne|].
    now exists p.
  - intros (Hne & p & -> & Hp). exists p. split; [reflexivity|].
    now apply list_elem_of_filter.
Qed.

Lemma keys_dict_set {A : Type} (key : string) (v : A) (d : list (string * A)) :
  keys (dict_set key v d) = if dict_mem key d then keys d else keys d ++ [key].
Proof.
  unfold dict_mem. induction d as [|[k w] d IH]; simpl; [reflexivity|].
  destruct (String.eqb k key) eqn:Hk; simpl; [reflexivity|].
  rewrite IH. now destruct (dict_get key d).
Qed.

Lemma dict_mem_keys {A : Type} (key : string) (d : list (string * A)) :
  dict_mem key d = true <-> key ∈ keys d.
Proof.
  unfold dict_mem. destruct (dict_get key d) as [v|] eqn:Hget.
  - split; [intros _ | reflexivity]. apply (keys_elem key v). now apply dict_get_Some.
  - apply dict_get_None in Hget. split; [discriminate | contradiction].
Qed.

Lemma _update_client_activity_dom (client_id : string) (s : Sys) (c : string) :
  let s' := snd (_update_client_activity clock client_id s) in
  (is_Some (info s' !! c) <-> is_Some (info s !! c)) /\
  (is_Some (activity s' !! c) <-> c = client_id \/ is_Some (activity s !! c)).
Proof.
  unfold _update_client_activity, bind, time_time, modify, info, activity; simpl.
  destruct (_connection_info (manager s) !! client_id) as [ci|] eqn:Hinfo; simpl.
  - destruct (decide (client_id = c)) as [<-|Hne].
    + rewrite !lookup_insert_eq, Hinfo. split; split; eauto.
    + rewrite !lookup_insert_ne by exact Hne. split; [reflexivity|].
      split; [auto | intros [->|H]; [contradiction | exact H]].
  - destruct (decide (client_id = c)) as [<-|Hne].
    + rewrite !lookup_insert_eq. split; [reflexivity|]. split; eauto.
    + rewrite !lookup_insert_ne by exact Hne. split; [reflexivity|].
      split; [auto | intros [->|H]; [contradiction | exact H]].
Qed.

Lemma _update_client_activity_consistent (client_id : string) (s : Sys) :
  client_id ∈ keys (active s) -> consistent s ->
  consistent (snd (_update_client_activity clock client_id s)).
Proof.
  intros Hin (Hnd & Hdom).
  destruct (_update_client_activity_frame clock client_id s) as (Hact & _).
  unfold consistent. rewrite Hact. split; [exact Hnd|]. intros c.
  destruct (_update_client_activity_dom client_id s c) as (Hi & Ha).
  destruct (Hdom c) as (Hci & Hca). rewrite Hi, Ha. split; [exact Hci|].
  split; [intros Hc; right; now apply Hca | intros [->|Hc]; [exact Hin | now apply Hca]].
Qed.

Lemma fan_out_consistent (message : WebSocketMessage) (exclude_client : option string)
    (items : list (string * WebSocket)) :
  forall (n0 : nat) (f0 : list string) (s : Sys),
    Forall (fun p => fst p ∈ keys (active s)) items ->
    consistent s ->
    consistent (snd (fan_out clock send_ok message exclude_client items n0 f0 s)).
Proof.
  induction items as [|[client_id websocket] rest IH]; intros n0 f0 s Hitems Hc;
    [exact Hc|].
  apply Forall_cons in Hitems as [Hin Hrest]. simpl in Hin.
  rewrite fan_out_cons. destruct (excluded exclude_client client_id); [now apply IH|].
  destruct (send_ok (steps (world s)) websocket).
  - destruct (_update_client_activity_frame clock client_id (delivered websocket message s))
      as (Hact & _).
    apply IH.
    + now rewrite Hact.
    + now apply _update_client_activity_consistent.
  - now apply IH.
Qed.

Lemma remove_session_consistent (client_id : string) (s : Sys) :
  consistent s -> consistent (snd (remove_session clock client_id s)).
Proof.
  intros (Hnd & Hdom).
  destruct (remove_session_effect clock client_id s) as (Hact & _ & _ & Hi & Ha).
  unfold consistent. rewrite Hact, Hi, Ha. split.
  - assert (Hsub : keys (dict_del client_id (active s)) `sublist_of` keys (active s))
      by (unfold keys; apply fmap_sublist, dict_del_sublist).
    eapply sublist_NoDup; eassumption.
  - intros c. rewrite keys_dict_del. destruct (Hdom c) as (Hci & Hca).
    destruct (decide (client_id = c)) as [<-|Hne].
    + rewrite !lookup_delete_eq. split; split;
        first [intros [Hne _]; congruence | intros [x Hx]; discriminate].
    + rewrite !lookup_delete_ne by exact Hne. rewrite <- Hci, <- Hca.
      split; split; first [intros [_ H]; exact H | intros H; split; [congruence | exact H]].
Qed.

Lemma handle_failed_consistent (disc : string -> Sys -> option Sys) :
  (forall c s s', disc c s = Some s' -> consistent s -> consistent s') ->
  forall failed s s',
    handle_failed disc failed s = Some s' -> consistent s -> consistent s'.
Proof.
  intros Hdisc. induction failed as [|f rest IH]; intros s s'; simpl.
  - now intros [= <-].
  - destruct (disc f s) as [s1|] eqn:Hf; [|discriminate]. intros Hrun Hc.
    apply (IH s1 s' Hrun). now apply (Hdisc f s).
Qed.

Lemma broadcast_with_consistent (disc : string -> Sys -> option Sys)
    (message : WebSocketMessage) (exclude_client : option string) (s s' : Sys) (n : nat) :
  (forall c t t', disc c t = Some t' -> consistent t -> consistent t') ->
  broadcast_with clock send_ok disc message exclude_client s = Some (n, s') ->
  consistent s -> consistent s'.
Proof.
  intros Hdisc. unfold broadcast_with.
  destruct (active s) as [|item items] eqn:Hitems; [now intros [= _ <-]|].
  pose proof (fan_out_consistent message exclude_client (item :: items) O [] s) as Hfan.
  destruct (fan_out clock send_ok message exclude_client (item :: items) O [] s)
    as [[sends failed] s1].
  destruct (handle_failed disc failed s1) as [s2|] eqn:Hclean; [|discriminate].
  intros [= _ <-] Hc.
  apply (handle_failed_consistent disc Hdisc failed s1 s2 Hclean).
  apply Hfan; [|exact Hc]. rewrite Hitems.
  apply Forall_forall. intros [k w] Hp. now apply (keys_elem k w).
Qed.

Lemma disconnect_fuel_consistent (fuel : nat) :
  forall c s s',
    disconnect_fuel clock send_ok fuel c s = Some s' -> consistent s -> consistent s'.
Proof.
  induction fuel as [|fuel IH]; intros c s s'; [discriminate|].
  rewrite disconnect_fuel_S. unfold broadcast_user_count_with.
  destruct (broadcast_with _ _ _ _ _ _) as [[n s2]|] eqn:Hb; [|discriminate].
  intros [= <-] Hc.
  apply (broadcast_with_consistent _ _ _ _ _ _ IH Hb).
  now apply remove_session_consistent.
Qed.

Lemma register_session_consistent (websocket : WebSocket) (client_id : string)
    (ip : option string) (s : Sys) :
  consistent s -> consistent (snd (register_session clock websocket client_id ip s)).
Proof.
  intros (Hnd & Hdom).
  unfold register_session, bind, time_time, modify, consistent, info, activity, active; simpl.
  fold (active s). rewrite keys_dict_set.
  destruct (dict_mem client_id (active s)) eqn:Hmem.
  - apply dict_mem_keys in Hmem. split; [exact Hnd|]. intros c.
    destruct (Hdom c) as (Hci & Hca). unfold info, activity in *.
    destruct (decide (client_id = c)) as [<-|Hne].
    + rewrite !lookup_insert_eq. split; split; eauto.
    + now rewrite !lookup_insert_ne by exact Hne.
  - assert (Hnot : client_id ∉ keys (active s)).
    { intros Hin. apply dict_mem_keys in Hin. congruence. }
    split.
    + apply NoDup_app. splits; [exact Hnd | | apply NoDup_singleton].
      intros x Hx Hx'. apply list_elem_of_singleton in Hx'. congruence.
    + intros c. destruct (Hdom c) as (Hci & Hca). unfold info, activity in *.
      rewrite elem_of_app, list_elem_of_singleton.
      destruct (decide (client_id = c)) as [<-|Hne].
      * rewrite !lookup_insert_eq. split; split; eauto.
      * rewrite !lookup_insert_ne by exact Hne. rewrite <- Hci, <- Hca.
        split; split; first [intros [H|H]; [exact H | congruence] | intros H; now left].
Qed.

(** X13.  The registry stays consistent: if the three dicts list the same
    identifiers, each once, before [connect], [disconnect], [broadcast] or
    [send_personal_message], then they do so after it, however the call
    ends and whichever sends fail on the way. *)
Theorem registry_stays_consistent (s : Sys) :
  consistent s ->
  (forall client_id s',
     disconnect clock send_ok client_id s = Some s' -> consistent s') /\
  (forall message exclude_client n s',
     broadcast clock send_ok message exclude_client s = Some (n, s') -> consistent s') /\
  (forall websocket client_id ip outcome s',
     connect clock accept_ok send_ok websocket client_id ip s = Some (outcome, s') ->
     consistent s') /\
  (forall message client_id ok s',
     send_personal_message clock send_ok message client_id s = Some (ok, s') ->
     consistent s').
Proof.
  intros Hc. splits.
  - intros client_id s' Hrun. exact (disconnect_fuel_consistent _ _ _ _ Hrun Hc).
  - intros message exclude_client n s' Hrun.
    exact (broadcast_with_consistent _ _ _ _ _ _ (disconnect_fuel_consistent _) Hrun Hc).
  - intros websocket client_id ip outcome s'. unfold connect, accept.
    destruct (accept_ok (steps (world s)) websocket); [|now intros [= _ <-]].
    set (s1 := {| manager := manager s; world := tick (world s) |}).
    pose proof (register_session_consistent websocket client_id ip s1 Hc) as Hc2.
    destruct (register_session clock websocket client_id ip s1) as [[] s2]. simpl in Hc2.
    assert (Hsnap : forall sent s3,
               match _board_state (manager s2) with
               | [] => (true, s2)
               | _ :: _ => _send_board_state send_ok websocket s2
               end = (sent, s3) -> consistent s3).
    { intros sent s3. destruct (_board_state (manager s2)); [now intros [= _ <-]|].
      unfold _send_board_state, send_text.
      destruct (send_ok (steps (world s2)) websocket); now intros [= _ <-]. }
    destruct (match _board_state (manager s2) with
              | [] => (true, s2)
              | _ :: _ => _send_board_state send_ok websocket s2
              end) as [sent s3] eqn:Hs3.
    specialize (Hsnap sent s3 eq_refl). destruct sent; [|now intros [= _ <-]].
    unfold broadcast_user_count, broadcast_user_count_with.
    destruct (broadcast_with _ _ _ _ _ s3) as [[n s4]|] eqn:Hb; [|discriminate].
    intros [= _ <-].
    exact (broadcast_with_consistent _ _ _ _ _ _ (disconnect_fuel_consistent _) Hb Hsnap).
  - intros message client_id ok s'. unfold send_personal_message.
    destruct (dict_get client_id (active s)) as [websocket|] eqn:Hget;
      [|now intros [= _ <-]].
    unfold send_text. destruct (send_ok (steps (world s)) websocket).
    + intros [= _ <-]. apply _update_client_activity_consistent; [|exact Hc].
      apply (keys_elem client_id websocket). now apply dict_get_Some.
    + destruct (disconnect clock send_ok client_id _) as [s2|] eqn:Hrun; [|discriminate].
      intros [= _ <-]. exact (disconnect_fuel_consistent _ _ _ _ Hrun Hc).
Qed.

(** X14.  A [connect] that raises has sent nothing and has not touched the
    board log.  If it was the transport that refused the handle, the
    registry is as before; if the handle was accepted, the failure was that
    of the snapshot, and the new session is left registered, for the
    caller to remove. *)
Theorem connect_failure (websocket : WebSocket) (client_id : string) (ip : option string)
    (e : Exn) (s s' : Sys) :
  connect clock accept_ok send_ok websocket client_id ip s = Some (Raise e, s') ->
  sent s' = sent s /\
  board s' = board s /\
  if accept_ok (steps (world s)) websocket
  then dict_get client_id (active s') = Some websocket /\ board s <> []
  else manager s' = manager s.
Proof.
  unfold connect, accept.
  destruct (accept_ok (steps (world s)) websocket); [|now intros [= _ <-]].
  set (s1 := {| manager := manager s; world := tick (world s) |}).
  destruct (register_session clock websocket client_id ip s1) as [[] s2] eqn:Hreg.
  assert (Hs2 : active s2 = dict_set client_id websocket (active s) /\
                board s2 = board s /\ sent s2 = sent s).
  { unfold register_session, bind, time_time, modify in Hreg. simpl in Hreg.
    injection Hreg as <-. auto. }
  destruct Hs2 as (Hact2 & Hb2 & Hsent2).
  fold (board s2). rewrite Hb2.
  destruct (board s) as [|a log] eqn:Hlog.
  - destruct (broadcast_user_count clock send_ok s2); discriminate.
  - unfold _send_board_state, send_text.
    destruct (send_ok (steps (world s2)) websocket).
    + destruct (broadcast_user_count clock send_ok _); discriminate.
    + intros [= _ <-]. unfold sent, board, active in *. simpl.
      splits; auto; try congruence.
      rewrite Hact2. apply dict_set_get.
Qed.

(** X15.  When the transport accepts the handle and no send fails,
    connecting an identifier that is not live adds it at the end of the
    registry, so that the count grows by one, and what reaches the wire is
    the snapshot, if the log is not empty, and then the new count for every
    session, the new one last. *)
Theorem connect_adds_session (websocket : WebSocket) (client_id : string)
    (ip : option string) (s : Sys) :
  dict_get client_id (active s) = None ->
  accept_ok (steps (world s)) websocket = true ->
  (forall n w, send_ok n w = true) ->
  exists s' : Sys,
    connect clock accept_ok send_ok websocket client_id ip s = Some (Ok tt, s') /\
    active s' = active s ++ [(client_id, websocket)] /\
    active_connections_count (manager s') = S (active_connections_count (manager s)) /\
    sent s' =
      sent s ++
      match board s with
      | [] => []
      | log => [(websocket, board_state_message log)]
      end ++
      deliveries (user_count_message (S (active_connections_count (manager s))))
        (active s ++ [(client_id, websocket)]).
Proof.
  intros Hfresh Hacc Hok. unfold connect, accept. rewrite Hacc.
  set (s1 := {| manager := manager s; world := tick (world s) |}).
  destruct (register_session clock websocket client_id ip s1) as [[] s2] eqn:Hreg.
  assert (Hset : dict_set client_id websocket (active s) = active s ++ [(client_id, websocket)]).
  { clear -Hfresh. induction (active s) as [|[k w] d IH]; simpl in *; [reflexivity|].
    destruct (String.eqb k client_id); [discriminate|]. now rewrite IH. }
  assert (Hs2 : active s2 = active s ++ [(client_id, websocket)] /\
                board s2 = board s /\ sent s2 = sent s).
  { unfold register_session, bind, time_time, modify in Hreg. simpl in Hreg.
    injection Hreg as <-. unfold active at 1. simpl. fold (active s). auto. }
  destruct Hs2 as (Hact2 & Hb2 & Hsent2).
  assert (Hsnap : exists s3,
             match _board_state (manager s2) with
             | [] => (true, s2)
             | _ :: _ => _send_board_state send_ok websocket s2
             end = (true, s3) /\
             active s3 = active s2 /\
             sent s3 = sent s ++ match board s with
                                 | [] => []
                                 | log => [(websocket, board_state_message log)]
                                 end).
  { fold (board s2). rewrite Hb2. destruct (board s) as [|a log] eqn:Hlog.
    - exists s2. rewrite app_nil_r. auto.
    - unfold _send_board_state, send_text. rewrite Hok. eexists. split; [reflexivity|].
      split; [reflexivity|]. unfold sent at 1. simpl. fold (sent s2) (board s2).
      now rewrite Hsent2, Hb2. }
  destruct Hsnap as (s3 & -> & Hact3 & Hsent3).
  destruct (broadcast_with_no_failure (disconnect_fuel clock send_ok (enough s3))
              (user_count_message (active_connections_count (manager s3))) None s3 Hok)
    as (s4 & Hrun & Hsent4 & Hact4).
  unfold broadcast_user_count, broadcast_user_count_with.
  rewrite Hrun. exists s4.
  assert (Hall : addressed None (active s3) = active s3).
  { unfold addressed. simpl. clear. induction (active s3) as [|p d IH]; simpl; congruence. }
  assert (Hcount : active_connections_count (manager s3) =
                   S (active_connections_count (manager s))).
  { unfold active_connections_count. fold (active s3) (active s).
    rewrite Hact3, Hact2, length_app. simpl. lia. }
  splits.
  - reflexivity.
  - now rewrite Hact4, Hact3.
  - unfold active_connections_count at 1. fold (active s4).
    rewrite Hact4. exact Hcount.
  - rewrite Hsent4, Hsent3, Hall, Hcount, Hact3, Hact2. now rewrite <- app_assoc.
Qed.

(** *** The sweep of idle sessions *)

Lemma disconnect_each_spec (clients : list string) :
  forall s : Sys,
    exists s' : Sys,
      disconnect_each clock send_ok clients s = Some s' /\
      Forall (fun c => unregistered c s') clients /\
      active s' `sublist_of` active s /\
      board s' = board s /\
      (forall c, unregistered c s -> unregistered c s').
Proof.
  induction clients as [|client_id rest IH]; intros s; simpl.
  - exists s. splits; auto.
  - destruct (disconnect_total clock send_ok client_id s) as [s1 Hrun].
    pose proof (disconnect_unregisters clock send_ok client_id s s1 Hrun) as Hun.
    destruct (disconnect_meets_spec client_id s s1 Hrun) as (Hsub & Hb & _ & Hkeep).
    rewrite Hrun. destruct (IH s1) as (s' & Hrest & Hall & Hsub' & Hb' & Hkeep').
    exists s'. splits; auto.
    + etransitivity; [exact Hsub'|]. etransitivity; [exact Hsub|]. apply dict_del_sublist.
    + congruence.
Qed.

(** X16.  [cleanup_inactive_connections] always returns.  It returns the
    number of entries of the activity dict that are older than the timeout
    at the clock reading of the call; every session with such an entry is
    deregistered when it returns; no session is added and the board log is
    untouched.  This holds in whatever order the dict yields its items. *)
Theorem cleanup_inactive_connections_evicts (items : list (string * Z))
    (timeout_seconds : Z) (s : Sys) :
  items ≡ₚ map_to_list (activity s) ->
  let now := clock (steps (world s)) in
  exists s' : Sys,
    cleanup_inactive_connections clock send_ok items timeout_seconds s =
      Some (length (inactive_clients now timeout_seconds items), s') /\
    (forall c t, activity s !! c = Some t -> timeout_seconds < now - t -> unregistered c s') /\
    active s' `sublist_of` active s /\
    board s' = board s.
Proof.
  intros Hitems now. unfold cleanup_inactive_connections, time_time.
  fold now.
  set (s1 := {| manager := manager s; world := tick (world s) |}).
  destruct (disconnect_each_spec (inactive_clients now timeout_seconds items) s1)
    as (s' & Hrun & Hall & Hsub & Hb & _).
  rewrite Hrun. exists s'. splits; auto.
  intros c t Hc Hidle. rewrite Forall_forall in Hall. apply Hall.
  unfold inactive_clients. apply list_elem_of_fmap. exists (c, t). split; [reflexivity|].
  apply list_elem_of_In, List.filter_In. split.
  - apply list_elem_of_In. rewrite Hitems. now apply elem_of_map_to_list.
  - simpl. destruct (Z.gtb_spec (now - t) timeout_seconds); [reflexivity | lia].
Qed.

End More.


Lemma three_sessions_consistent (log : list action) : consistent (three_sessions log).
Proof.
  split.
  - simpl.
    repeat (apply NoDup_cons_2;
            [intros Hx; repeat (apply elem_of_cons in Hx as [Hx|Hx]; [discriminate|]);
             inversion Hx|]).
    apply NoDup_nil_2.
  - intros c. unfold info, activity. simpl.
    rewrite !elem_of_cons, elem_of_nil, !lookup_insert, !lookup_empty.
    repeat case_decide; subst; split; split; intros Hx;
      first [ now eexists
            | now left
            | now (right; left)
            | now (right; right; left)
            | destruct Hx as [Hx|[Hx|[Hx|[]]]]; congruence
            | destruct Hx as [x Hx]; discriminate ].
Qed.

Lemma registry_stays_consistent_witness :
  consistent (default (three_sessions [])
                (disconnect at_five always "a" (three_sessions []))).
Proof.
  apply (proj1 (registry_stays_consistent at_five always always (three_sessions [])
                  (three_sessions_consistent [])) "a").
  vm_compute. reflexivity.
Defined.

Lemma connect_failure_witness :
  let s := three_sessions [] in
  let s' := after (connect at_five never always 4%nat "d" None s) s in
  sent s' = sent s /\ board s' = board s /\ manager s' = manager s.
Proof.
  apply (connect_failure at_five never always 4%nat "d" None
           (WebSocketException "Connection failed") (three_sessions [])).
  reflexivity.
Defined.

Lemma connect_adds_session_witness :
  let s := three_sessions [] in
  exists s' : Sys,
    connect at_five always always 4%nat "d" None s = Some (Ok tt, s') /\
    active s' = active s ++ [("d", 4%nat)] /\
    active_connections_count (manager s') = S (active_connections_count (manager s)) /\
    sent s' =
      sent s ++ [] ++
      deliveries (user_count_message (S (active_connections_count (manager s))))
        (active s ++ [("d", 4%nat)]).
Proof.
  apply (connect_adds_session at_five always always 4%nat "d" None (three_sessions [])).
  - reflexivity.
  - reflexivity.
  - reflexivity.
Defined.

Lemma cleanup_inactive_connections_evicts_witness :
  let s := three_sessions [] in
  exists s' : Sys,
    cleanup_inactive_connections at_five always (map_to_list (activity s)) 3 s =
      Some (length (inactive_clients 5 3 (map_to_list (activity s))), s') /\
    (forall c t, activity s !! c = Some t -> 3 < 5 - t -> unregistered c s') /\
    active s' `sublist_of` active s /\
    board s' = board s.
Proof.
  apply (cleanup_inactive_connections_evicts at_five always
           (map_to_list (activity (three_sessions []))) 3 (three_sessions [])).
  reflexivity.
Defined.

End ManagerMore.

(** ** More on inbound frames and the connection handler *)
Module HandlerProps.
Import ManagerProps WebsocketProps ManagerMore.

(** Nothing but an object is a valid [payload]. *)
Lemma validate_payload_not_object (cfg : Settings) (v : json) :
  (forall p, v <> JObj p) -> is_ok (validate_payload cfg v) = false.
Proof.
  intros Hv. destruct v; try reflexivity. now destruct (Hv items).
Qed.

Section Frames.
Variable cfg : Settings.
Variable json_loads : string -> option json.
Variable clock : nat -> Z.
Variable accept_ok : nat -> WebSocket -> bool.
Variable send_ok : nat -> WebSocket -> bool.


Lemma _process_incoming_message_returns (raw_data client_id : string) (s : Sys)
    (message : WebSocketMessage) :
  fst (_process_incoming_message cfg json_loads raw_data client_id s) = Ok message ->
  exists data : list (string * json),
    safe_json_loads json_loads raw_data = JObj data /\
    dict_get "clientId" data = Some (JStr client_id) /\
    new_WebSocketMessage cfg data = Ok message.
Proof.
  unfold _process_incoming_message, invalid.
  destruct (safe_json_loads json_loads raw_data) as [| | | | | |data]; simpl;
    try discriminate.
  destruct (dict_mem "type" data); simpl; [|discriminate].
  destruct (dict_mem "clientId" data); simpl; [|discriminate].
  destruct (dict_get "clientId" data) as [v|] eqn:Hcid; simpl; [|discriminate].
  destruct v as [| | | |text| |]; simpl; try discriminate.
  destruct (String.eqb_spec text client_id) as [->|]; simpl; [|discriminate].
  destruct (new_WebSocketMessage cfg data) as [built|e] eqn:Hnew; simpl; [|discriminate].
  intros Hout. exists data. splits; auto. rewrite Hnew.
  destruct (MessageType_eqb (type built) DRAW || MessageType_eqb (type built) TEXT);
    [simpl in Hout; congruence|].
  destruct (MessageType_eqb (type built) CLEAR); simpl in Hout; congruence.
Qed.

(** X17.  A frame that [_process_incoming_message] accepts is a JSON object
    whose [clientId] is the identifier the connection is bound to, and the
    message returned carries that identifier and the [type] of the frame. *)
Theorem accepted_message_is_bound (raw_data client_id : string) (s : Sys)
    (message : WebSocketMessage) :
  fst (_process_incoming_message cfg json_loads raw_data client_id s) = Ok message ->
  Schemas.client_id message = client_id /\
  exists data : list (string * json),
    safe_json_loads json_loads raw_data = JObj data /\
    dict_get "clientId" data = Some (JStr client_id) /\
    dict_get "type" data = Some (JStr (MessageType_value (type message))).
Proof.
  intros Hout.
  destruct (_process_incoming_message_returns raw_data client_id s message Hout)
    as (data & Hraw & Hcid & Hnew).
  split.
  - unfold new_WebSocketMessage in Hnew. rewrite Hcid in Hnew. simpl in Hnew.
    destruct (required "type" data _) as [t|e]; simpl in Hnew; [|discriminate].
    destruct (optional "payload" data None _) as [pl|e]; simpl in Hnew; [|discriminate].
    now injection Hnew as <-.
  - exists data. splits; auto. now apply (new_WebSocketMessage_type cfg).
Qed.

(** X18.  What is accepted, exactly: a frame is accepted if and only if it
    parses to a JSON object whose [type] is one of the seven message types,
    whose [clientId] is the bound identifier, and whose [payload] is absent,
    null or an object.  The payload models never cause a rejection. *)
Theorem accepted_frames (raw_data client_id : string) (s : Sys) :
  is_ok (fst (_process_incoming_message cfg json_loads raw_data client_id s)) = true <->
  exists (data : list (string * json)) (t : MessageType),
    safe_json_loads json_loads raw_data = JObj data /\
    dict_get "type" data = Some (JStr (MessageType_value t)) /\
    dict_get "clientId" data = Some (JStr client_id) /\
    (dict_get "payload" data = None \/
     dict_get "payload" data = Some JNull \/
     exists p, dict_get "payload" data = Some (JObj p)).
Proof.
  split.
  - intros Hok.
    destruct (fst (_process_incoming_message cfg json_loads raw_data client_id s))
      as [message|e] eqn:Hout; [|discriminate].
    destruct (_process_incoming_message_returns raw_data client_id s message Hout)
      as (data & Hraw & Hcid & Hbuilt).
    pose proof (new_WebSocketMessage_type cfg data message Hbuilt) as Htype.
    exists data, (type message). splits; auto.
    unfold _process_incoming_message in Hout. rewrite Hraw in Hout.
    unfold dict_mem in Hout. rewrite Htype, Hcid in Hout. simpl in Hout.
    rewrite String.eqb_refl in Hout. simpl in Hout.
    destruct (new_WebSocketMessage cfg data) as [built|e] eqn:Hnew; [|discriminate].
    unfold new_WebSocketMessage, required, optional in Hnew.
    rewrite Htype, Hcid in Hnew. simpl in Hnew.
    rewrite MessageType_of_value_value in Hnew. simpl in Hnew.
    destruct (dict_get "payload" data) as [v|]; [|now left]. right.
    destruct v as [| | | | | |p]; eauto;
      match type of Hnew with
      | context [validate_payload cfg ?v] =>
          pose proof (validate_payload_not_object cfg v) as Hno;
          destruct (validate_payload cfg v); [|discriminate];
          discriminate Hno; intros p; discriminate
      end.
  - intros (data & t & Hraw & Htype & Hcid & Hpayload).
    unfold _process_incoming_message. rewrite Hraw.
    unfold dict_mem. rewrite Htype, Hcid. simpl. rewrite String.eqb_refl. simpl.
    assert (Hnew : exists built, new_WebSocketMessage cfg data = Ok built).
    { destruct Hpayload as [Hp|[Hp|[p Hp]]].
      - unfold new_WebSocketMessage, required, optional. rewrite Htype, Hcid, Hp. simpl.
        rewrite MessageType_of_value_value. simpl. eauto.
      - unfold new_WebSocketMessage, required, optional. rewrite Htype, Hcid, Hp. simpl.
        rewrite MessageType_of_value_value. simpl. eauto.
      - destruct (new_WebSocketMessage_object cfg data p t client_id Htype Hcid Hp) as [pl H].
        eauto. }
    destruct Hnew as [built ->].
    destruct (MessageType_eqb (type built) DRAW || MessageType_eqb (type built) TEXT);
      [reflexivity|].
    now destruct (MessageType_eqb (type built) CLEAR).
Qed.


Lemma on_receive_text_total (websocket : WebSocket) (raw_data client_id : string) (s : Sys) :
  is_Some (on_receive_text cfg json_loads clock send_ok websocket client_id raw_data s).
Proof.
  unfold on_receive_text.
  destruct (_process_incoming_message cfg json_loads raw_data client_id s) as [[m|e] s1].
  - destruct (broadcast_total clock send_ok m (Some client_id) s1) as [[n s2] ->]. eauto.
  - destruct e; eauto.
Qed.

Lemma receive_loop_total (websocket : WebSocket) (client_id : string)
    (inbound : list Inbound) :
  forall s, is_Some (receive_loop cfg json_loads clock send_ok websocket client_id inbound s).
Proof.
  induction inbound as [|[raw_data| |] rest IH]; intros s; simpl; eauto.
  destruct (on_receive_text_total websocket raw_data client_id s) as [s1 ->]. apply IH.
Qed.

(** X20.  However a connection goes, [websocket_endpoint] comes to its end
    and the identifier is then in none of the registry dicts: whether the
    handshake failed, whichever frames came in and whichever sends failed,
    the last thing done is the deregistration. *)
Theorem websocket_endpoint_deregisters (websocket : WebSocket) (client_id : string)
    (forwarded_for : option string) (inbound : list Inbound) (s : Sys) :
  exists s' : Sys,
    websocket_endpoint cfg json_loads clock accept_ok send_ok websocket client_id
      forwarded_for inbound s = Some s' /\
    unregistered client_id s'.
Proof.
  unfold websocket_endpoint.
  assert (Hconnect : is_Some (connect clock accept_ok send_ok websocket client_id
                                (forwarded_ip forwarded_for) s)).
  { unfold connect, accept. destruct (accept_ok _ _); [|eauto].
    destruct (register_session _ _ _ _ _) as [[] s2].
    destruct (match _board_state (manager s2) with
              | [] => (true, s2)
              | _ :: _ => _send_board_state send_ok websocket s2
              end) as [[] s3]; [|eauto].
    destruct (broadcast_user_count_total clock send_ok s3) as [s4 ->]. eauto. }
  destruct Hconnect as [[[[]|e] s1] ->].
  - destruct (receive_loop_total websocket client_id inbound s1) as [s2 ->].
    destruct (disconnect_total clock send_ok client_id s2) as [s' Hrun].
    pose proof (disconnect_unregisters clock send_ok client_id s2 s' Hrun). eauto.
  - destruct (disconnect_total clock send_ok client_id s1) as [s' Hrun].
    pose proof (disconnect_unregisters clock send_ok client_id s1 s' Hrun). eauto.
Qed.

End Frames.

Lemma accepted_message_is_bound_witness :
  let data := stroke_of "a" 3 in
  let message :=
    match fst (_process_incoming_message settings (reads_as (JObj data)) "frame" "a"
                 (three_sessions [])) with
    | Ok m => m
    | Raise _ => user_count_message 0
    end in
  Schemas.client_id message = "a" /\
  exists data' : list (string * json),
    safe_json_loads (reads_as (JObj data)) "frame" = JObj data' /\
    dict_get "clientId" data' = Some (JStr "a") /\
    dict_get "type" data' = Some (JStr (MessageType_value (type message))).
Proof.
  apply (accepted_message_is_bound settings (reads_as (JObj (stroke_of "a" 3))) "frame" "a"
           (three_sessions [])).
  vm_compute. reflexivity.
Defined.


End HandlerProps.

(** ** The payload models and the forwarded address *)
Module SchemaProps.
Import ManagerProps TextProps.






(** *** Stripping *)

Lemma lstrip_suffix (l : list ascii) : exists pre, l = pre ++ lstrip l.
Proof.
  induction l as [|c l [pre IH]]; simpl; [now exists []|].
  destruct (is_space c); [|now exists []].
  exists (c :: pre). simpl. now rewrite <- IH.
Qed.

Lemma lstrip_head (l : list ascii) (c : ascii) (rest : list ascii) :
  lstrip l = c :: rest -> is_space c = false.
Proof.
  induction l as [|a l IH]; simpl; [discriminate|].
  destruct (is_space a) eqn:Ha; [exact IH|]. now intros [= <- _].
Qed.

Lemma rstrip_prefix (l : list ascii) : exists post, l = rstrip l ++ post.
Proof.
  unfold rstrip. destruct (lstrip_suffix (rev l)) as [pre Hpre].
  exists (rev pre). rewrite <- rev_app_distr, <- Hpre. now rewrite rev_involutive.
Qed.

Lemma rstrip_last (l init : list ascii) (c : ascii) :
  rstrip l = init ++ [c] -> is_space c = false.
Proof.
  unfold rstrip. intros Hr. apply (f_equal (@rev ascii)) in Hr.
  rewrite rev_involutive, rev_app_distr in Hr. simpl in Hr.
  now apply (lstrip_head (rev l) c (rev init)).
Qed.

Lemma before_comma_no_comma (s : string) :
  ","%char ∉ list_ascii_of_string (before_comma s).
Proof.
  induction s as [|c s IH]; simpl; [apply not_elem_of_nil|].
  destruct (Ascii.eqb_spec c ","); simpl; [apply not_elem_of_nil|].
  apply not_elem_of_cons. split; [congruence | exact IH].
Qed.

(** X22.  The address [websocket_endpoint] takes from the [x-forwarded-for]
    header, the first entry of the list with [strip()] applied, contains no
    comma and neither begins nor ends with a whitespace character. *)
Theorem forwarded_ip_is_trimmed (forwarded_for : option string) (ip : string) :
  forwarded_ip forwarded_for = Some ip ->
  let chars := list_ascii_of_string ip in
  (","%char ∉ chars) /\
  (forall c rest, chars = c :: rest -> is_space c = false) /\
  (forall init c, chars = init ++ [c] -> is_space c = false).
Proof.
  unfold forwarded_ip. destruct forwarded_for as [header|]; [|discriminate].
  destruct (String.eqb header ""); [discriminate|]. intros [= <-]. cbv zeta.
  unfold strip. rewrite list_ascii_of_string_of_list_ascii.
  set (l := list_ascii_of_string (before_comma header)).
  destruct (rstrip_prefix (lstrip l)) as [post Hpost].
  destruct (lstrip_suffix l) as [pre Hpre].
  splits.
  - intros Hin. apply (before_comma_no_comma header). fold l.
    rewrite Hpre, Hpost. rewrite !elem_of_app. auto.
  - intros c rest Hr. rewrite Hr in Hpost. simpl in Hpost.
    now apply (lstrip_head l c (rest ++ post)).
  - intros init c Hr. now apply (rstrip_last (lstrip l) init).
Qed.

Lemma forwarded_ip_is_trimmed_witness :
  let chars := list_ascii_of_string "10.0.0.1" in
  (","%char ∉ chars) /\
  (forall c rest, chars = c :: rest -> is_space c = false) /\
  (forall init c, chars = init ++ [c] -> is_space c = false).
Proof.
  apply (forwarded_ip_is_trimmed (Some "  10.0.0.1 , 10.0.0.2") "10.0.0.1").
  vm_compute. reflexivity.
Defined.

(** *** Sanitizing *)

Lemma list_ascii_of_string_append (s1 s2 : string) :
  list_ascii_of_string (String.append s1 s2) =
    list_ascii_of_string s1 ++ list_ascii_of_string s2.
Proof.
  induction s1 as [|c s1 IH]; [reflexivity|].
  change (c :: list_ascii_of_string (String.append s1 s2) =
          c :: (list_ascii_of_string s1 ++ list_ascii_of_string s2)).
  now rewrite IH.
Qed.

Lemma list_ascii_of_string_length (s : string) :
  length (list_ascii_of_string s) = String.length s.
Proof. induction s as [|c s IH]; simpl; [reflexivity | now rewrite IH]. Qed.

Lemma collapse_spaces_elem (l : list ascii) :
  forall (in_run : bool) (c : ascii),
    c ∈ collapse_spaces in_run l -> c = " "%char \/ c ∈ l.
Proof.
  induction l as [|a l IH]; intros in_run c; simpl; [intros Hc; inversion Hc|].
  destruct (is_space a); [destruct in_run|]; rewrite ?elem_of_cons; intros Hc.
  - destruct (IH true c Hc); auto.
  - destruct Hc as [->|Hc]; [now left|]. destruct (IH true c Hc); auto.
  - destruct Hc as [->|Hc]; [now right; left|]. destruct (IH false c Hc); auto.
Qed.

Lemma collapse_spaces_length (l : list ascii) :
  forall in_run : bool, (length (collapse_spaces in_run l) <= length l)%nat.
Proof.
  induction l as [|a l IH]; intros in_run; simpl; [lia|].
  destruct (is_space a); [destruct in_run|]; simpl.
  - specialize (IH true). lia.
  - specialize (IH true). lia.
  - specialize (IH false). lia.
Qed.

(** X23.  The text [sanitize_text_content] returns holds none of the
    characters [<], [>], double quote and single quote, neither begins nor
    ends with whitespace, and, for a [max_length] that is not negative, is
    at most [max_length] characters long. *)
Theorem sanitize_text_content_safe (content : string) (max_length : Z) :
  0 <= max_length ->
  let chars := list_ascii_of_string (sanitize_text_content content max_length) in
  Forall (fun c => is_dangerous c = false) chars /\
  Z.of_nat (length chars) <= max_length /\
  (forall c rest, chars = c :: rest -> is_space c = false) /\
  (forall init c, chars = init ++ [c] -> is_space c = false).
Proof.
  intros Hmax. cbv zeta. unfold sanitize_text_content.
  set (kept := List.filter (fun c => negb (is_dangerous c)) (list_ascii_of_string content)).
  set (cut := if Z.of_nat (String.length (string_of_list_ascii kept)) >? max_length
              then slice_to max_length (string_of_list_ascii kept)
              else string_of_list_ascii kept).
  rewrite list_ascii_of_string_of_list_ascii.
  set (l := collapse_spaces false (list_ascii_of_string cut)).
  destruct (rstrip_prefix (lstrip l)) as [post Hpost].
  destruct (lstrip_suffix l) as [pre Hpre].
  assert (Hkept : Forall (fun c => is_dangerous c = false) kept).
  { apply Forall_forall. intros c Hc. apply list_elem_of_In, List.filter_In in Hc as [_ Hc].
    now apply Bool.negb_true_iff. }
  assert (Hcut : (forall c, c ∈ list_ascii_of_string cut -> c ∈ kept) /\
                 Z.of_nat (String.length cut) <= max_length).
  { subst cut.
    destruct (Z.gtb_spec (Z.of_nat (String.length (string_of_list_ascii kept))) max_length)
      as [Hlong|Hshort].
    - destruct (slice_to_split max_length (string_of_list_ascii kept)) as (rest & Hs & Hlen).
      split.
      + intros c Hc.
        rewrite <- (list_ascii_of_string_of_list_ascii kept), Hs,
          list_ascii_of_string_append.
        apply elem_of_app. now left.
      + rewrite Hlen. unfold slice_index. destruct (Z.ltb_spec max_length 0); lia.
    - split; [|lia]. intros c. now rewrite list_ascii_of_string_of_list_ascii. }
  destruct Hcut as [Hsub Hlen].
  assert (Hl : (length (rstrip (lstrip l)) <= length l)%nat).
  { rewrite Hpre at 2. rewrite Hpost at 2. rewrite !length_app. lia. }
  splits.
  - apply Forall_forall. intros c Hc.
    assert (Hin : c ∈ l).
    { rewrite Hpre, Hpost, !elem_of_app. auto. }
    apply collapse_spaces_elem in Hin as [->|Hin]; [reflexivity|].
    rewrite Forall_forall in Hkept. auto.
  - pose proof (collapse_spaces_length (list_ascii_of_string cut) false) as Hc.
    fold l in Hc. rewrite list_ascii_of_string_length in Hc. lia.
  - intros c rest Hr. rewrite Hr in Hpost. simpl in Hpost.
    now apply (lstrip_head l c (rest ++ post)).
  - intros init c Hr. now apply (rstrip_last (lstrip l) init).
Qed.

Lemma sanitize_text_content_safe_witness :
  let chars := list_ascii_of_string (sanitize_text_content "  <b>hi   there</b>  " 6) in
  Forall (fun c => is_dangerous c = false) chars /\
  Z.of_nat (length chars) <= 6 /\
  (forall c rest, chars = c :: rest -> is_space c = false) /\
  (forall init c, chars = init ++ [c] -> is_space c = false).
Proof.
  apply (sanitize_text_content_safe "  <b>hi   there</b>  " 6). lia.
Defined.

End SchemaProps.

(** ** Counting the sessions *)
Module CountProps.
Import ManagerProps.

(** X1.  In a consistent registry [active_connections_count] is the number
    of metadata records and the number of activity records: the count the
    statistics report is the length of the list they report. *)
Theorem active_connections_count_agrees (s : Sys) :
  consistent s ->
  active_connections_count (manager s) = base.size (info s) /\
  active_connections_count (manager s) = base.size (activity s).
Proof.
  intros (Hnd & Hdom). unfold active_connections_count. fold (active s).
  assert (Hlen : length (active s) = base.size (list_to_set (keys (active s)) : gset string)).
  { rewrite size_list_to_set by exact Hnd. unfold keys. now rewrite length_fmap. }
  split.
  - rewrite Hlen, <- size_dom. f_equal. apply set_eq. intros c.
    rewrite elem_of_list_to_set, elem_of_dom. apply (Hdom c).
  - rewrite Hlen, <- size_dom. f_equal. apply set_eq. intros c.
    rewrite elem_of_list_to_set, elem_of_dom. apply (Hdom c).
Qed.

Lemma active_connections_count_agrees_witness :
  let s := three_sessions [] in
  active_connections_count (manager s) = base.size (info s) /\
  active_connections_count (manager s) = base.size (activity s).
Proof.
  apply (active_connections_count_agrees (three_sessions [])).
  apply ManagerMore.three_sessions_consistent.
Defined.

End CountProps.
